(** * Sierra agent: a shallow embedding of [agent.py]

    The agent of [agent.py] classifies a user utterance through a
    language-model call, runs up to three handlers (order lookup, product
    recommendation, early-riser promotion) and asks the model for a final
    reply in persona, recording the turn in its conversation history.

    Python [str] values are represented by Rocq strings holding their UTF-8
    encoding: equality, concatenation, splitting on [","] and code-point
    order coincide with the byte-level operations on that encoding.  The
    language model, the console, the clock and the random source are
    external; they are gathered in a [World] over which every theorem
    quantifies. *)

From Stdlib Require Import ZArith QArith Ascii.
From stdpp Require Import gmap strings list fin_maps sorting.

Local Open Scope Z_scope.

(** ** Python string operations *)

Module PyStr.

Definition nl : string := String (ascii_of_nat 10) "".

Definition byte_str (n : N) : string := String (ascii_of_N n) "".

(** UTF-8 encoding of one code point. *)
Definition utf8 (c : N) : string :=
  (if c <? 128 then byte_str c
   else if c <? 2048 then
     byte_str (192 + c / 64) +:+ byte_str (128 + c mod 64)
   else if c <? 65536 then
     byte_str (224 + c / 4096) +:+ byte_str (128 + (c / 64) mod 64)
       +:+ byte_str (128 + c mod 64)
   else
     byte_str (240 + c / 262144) +:+ byte_str (128 + (c / 4096) mod 64)
       +:+ byte_str (128 + (c / 64) mod 64) +:+ byte_str (128 + c mod 64))%N.

(** The code points for which [str.isspace] holds; these are the
    characters removed by [str.strip()] called without argument. *)
Definition whitespace_code_points : list N :=
  [9; 10; 11; 12; 13; 28; 29; 30; 31; 32; 133; 160; 5760;
   8192; 8193; 8194; 8195; 8196; 8197; 8198; 8199; 8200; 8201; 8202;
   8232; 8233; 8239; 8287; 12288]%N.

Definition whitespace : list string := utf8 <$> whitespace_code_points.

Fixpoint drop_prefix (p s : string) : option string :=
  match p, s with
  | "", _ => Some s
  | String a p', String b s' =>
      if decide (a = b) then drop_prefix p' s' else None
  | String _ _, "" => None
  end.

Fixpoint drop_any (ps : list string) (s : string) : option string :=
  match ps with
  | [] => None
  | p :: ps' =>
      match drop_prefix p s with
      | Some s' => Some s'
      | None => drop_any ps' s
      end
  end.

Fixpoint lstrip_with (ps : list string) (fuel : nat) (s : string) : string :=
  match fuel with
  | O => s
  | S fuel' =>
      match drop_any ps s with
      | Some s' => lstrip_with ps fuel' s'
      | None => s
      end
  end.

(** Every entry of [whitespace] is at least one byte long, so [length s]
    rounds are enough to remove all leading whitespace. *)
Definition lstrip (s : string) : string :=
  lstrip_with whitespace (String.length s) s.

Definition rstrip (s : string) : string :=
  String.rev
    (lstrip_with (String.rev <$> whitespace) (String.length s) (String.rev s)).

(** [s.strip()] *)
Definition strip (s : string) : string := rstrip (lstrip s).

(** [s.split(sep)] for a one-character separator: the result is never
    empty, and [n] separators give [n + 1] pieces. *)
Fixpoint split (sep : ascii) (s : string) : list string :=
  match s with
  | "" => [""]
  | String a s' =>
      if decide (a = sep) then "" :: split sep s'
      else match split sep s' with
           | [] => [String a ""]
           | w :: ws => String a w :: ws
           end
  end.

(** [sep.join(l)] *)
Definition join (sep : string) (l : list string) : string :=
  String.concat sep l.

(** Truth value of a string: the empty string is false. *)
Definition truthy (s : string) : bool :=
  match s with "" => false | _ => true end.

(** [x in l] for a list of strings. *)
Definition in_list (x : string) (l : list string) : bool :=
  bool_decide (x ∈ l).

(** [s[:n]] *)
Definition take (n : nat) (s : string) : string := String.substring 0 n s.

Fixpoint map_chars (f : ascii -> ascii) (s : string) : string :=
  match s with
  | "" => ""
  | String a s' => String (f a) (map_chars f s')
  end.

(** [s.upper()] on the ASCII range: the letters [a]-[z] move to [A]-[Z]
    and every other byte below 128 is kept.  The agent only applies it
    to the first four characters of a UUID string. *)
Definition upper_char (a : ascii) : ascii :=
  let n := N_of_ascii a in
  if ((97 <=? n) && (n <=? 122))%N then ascii_of_N (n - 32) else a.

Definition upper (s : string) : string := map_chars upper_char s.

(** [s.lower()] on ASCII strings: the letters [A]-[Z] move to [a]-[z]. *)
Definition lower_char (a : ascii) : ascii :=
  let n := N_of_ascii a in
  if ((65 <=? n) && (n <=? 90))%N then ascii_of_N (n + 32) else a.

Definition lower_ascii (s : string) : string := map_chars lower_char s.

Fixpoint all_chars (p : ascii -> bool) (s : string) : bool :=
  match s with
  | "" => true
  | String a s' => p a && all_chars p s'
  end.

(** A digit or an upper-case letter [A]-[Z]. *)
Definition is_upper_alnum (a : ascii) : bool :=
  let n := N_of_ascii a in
  (((48 <=? n) && (n <=? 57)) || ((65 <=? n) && (n <=? 90)))%N.

(** [x in s] for strings: [x] occurs in [s] as a contiguous substring. *)
Definition Contains (s x : string) : Prop :=
  ∃ pre post, s = pre +:+ x +:+ post.

End PyStr.

Import PyStr.

(** ** Data model *)

(** An order record of [data/CustomerOrders.json]; the agent reads these
    four fields. *)
Record Order := {
  Email : string;
  OrderNumber : string;
  Status : string;
  TrackingNumber : string
}.

(** A product record of [data/ProductCatalog.json]. *)
Record Product := {
  ProductName : string;
  Description : string;
  Tags : list string
}.

Inductive Role := system | user | assistant.

(** A role-tagged chat message: [{"role": ..., "content": ...}]. *)
Record Message := { role : Role; content : string }.

(** The arguments of one [client.chat.completions.create] call. *)
Record Request := {
  req_model : string;
  req_messages : list Message;
  req_temperature : Q
}.

(** What the provider does with a request: it raises an exception [e] of
    class [Exception] (kept as [str(e)]), or returns a response whose
    choices carry a message content each, [None] for a null content.
    Interpreter signals that are not of class [Exception], such as
    [KeyboardInterrupt], are not provider failures and are left out. *)
Inductive Completion :=
  | Raised (e : string)
  | Response (choices : list (option string)).

(** The external collaborators.  The provider may answer depending on all
    requests it received earlier; the clock and the random source are
    indexed by the number of earlier readings. *)
Record World := {
  completions_create : list Request -> Request -> Completion;
  pacific_hour : nat -> Z;
  urandom16 : nat -> Z
}.

(** The instance attributes of [SierraAgent] that hold data. *)
Record Agent := {
  orders : list Order;
  products : list Product;
  history : list Message;
  tag_index : gmap string (list Product)
}.

(** The agent together with the process around it: the requests sent to
    the provider so far, the lines still to be read from the console,
    what was written to it, and how often the clock and the random source
    were read. *)
Record State := {
  self : Agent;
  sent : list Request;
  stdin : list string;
  stdout : list string;
  clock_reads : nat;
  random_draws : nat
}.

Definition set_self (f : Agent -> Agent) (st : State) : State :=
  {| self := f (self st); sent := sent st; stdin := stdin st;
     stdout := stdout st; clock_reads := clock_reads st;
     random_draws := random_draws st |}.

Definition record_request (req : Request) (st : State) : State :=
  {| self := self st; sent := sent st ++ [req]; stdin := stdin st;
     stdout := stdout st; clock_reads := clock_reads st;
     random_draws := random_draws st |}.

Definition write (s : string) (st : State) : State :=
  {| self := self st; sent := sent st; stdin := stdin st;
     stdout := stdout st ++ [s]; clock_reads := clock_reads st;
     random_draws := random_draws st |}.

Definition set_stdin (lines : list string) (st : State) : State :=
  {| self := self st; sent := sent st; stdin := lines;
     stdout := stdout st; clock_reads := clock_reads st;
     random_draws := random_draws st |}.

Definition tick_clock (st : State) : State :=
  {| self := self st; sent := sent st; stdin := stdin st;
     stdout := stdout st; clock_reads := S (clock_reads st);
     random_draws := random_draws st |}.

Definition tick_random (st : State) : State :=
  {| self := self st; sent := sent st; stdin := stdin st;
     stdout := stdout st; clock_reads := clock_reads st;
     random_draws := S (random_draws st) |}.

Definition set_history (h : list Message) (a : Agent) : Agent :=
  {| orders := orders a; products := products a; history := h;
     tag_index := tag_index a |}.

Definition set_tag_index (m : gmap string (list Product)) (a : Agent) : Agent :=
  {| orders := orders a; products := products a; history := history a;
     tag_index := m |}.

(** ** The [defaultdict(list)] behind the tag index *)

Module DefaultDict.

(** [k in d]: a membership test, which never calls the default factory. *)
Definition contains {V} (k : string) (d : gmap string (list V)) : bool :=
  bool_decide (is_Some (d !! k)).

(** [d[k]]: a missing key is first inserted with a fresh empty list. *)
Definition getitem {V} (k : string) (d : gmap string (list V))
  : list V * gmap string (list V) :=
  match d !! k with
  | Some v => (v, d)
  | None => ([], <[k := []]> d)
  end.

(** [d[k].append(x)] *)
Definition append {V} (k : string) (x : V) (d : gmap string (list V))
  : gmap string (list V) :=
  let '(v, d') := getitem k d in <[k := v ++ [x]]> d'.

(** A dictionary entry after more items were appended to it. *)
Definition extend {V} (entry : option (list V)) (more : list V)
  : option (list V) :=
  match more with
  | [] => entry
  | _ :: _ => Some (default [] entry ++ more)
  end.

(** [sorted(d.keys())]: the keys in code-point order. *)
Definition sorted_keys {V} (d : gmap string (list V)) : list string :=
  merge_sort String.le (map_to_list d).*1.

End DefaultDict.

(** ** Computations with effects *)

(** The only exception that leaves the agent's methods: [input] raises
    [EOFError] when the console is closed. *)
Inductive exn := EOFError.

Inductive Outcome (A : Type) :=
  | Ret (a : A)
  | Raise (e : exn).
Arguments Ret {A} a.
Arguments Raise {A} e.

(** A computation runs from a state to an outcome and a state; effects
    performed before an exception is raised persist. *)
Definition M (A : Type) : Type := State -> Outcome A * State.

Definition ret {A} (a : A) : M A := fun st => (Ret a, st).

Definition raise {A} (e : exn) : M A := fun st => (Raise e, st).

Definition bind {A B} (c : M A) (k : A -> M B) : M B :=
  fun st =>
    match c st with
    | (Ret a, st') => k a st'
    | (Raise e, st') => (Raise e, st')
    end.

Definition get : M State := fun st => (Ret st, st).

Definition modify (f : State -> State) : M unit := fun st => (Ret tt, f st).

Declare Scope agent_scope.
Delimit Scope agent_scope with agent.
Notation "x <- c ;; k" := (bind c (fun x => k))
  (at level 100, c at next level, right associativity) : agent_scope.
Notation "c ;;; k" := (bind c (fun _ => k))
  (at level 100, right associativity) : agent_scope.
Local Open Scope agent_scope.

(** [print(s)] *)
Definition print (s : string) : M unit := modify (write (s +:+ nl)).

(** [input(prompt)]: writes the prompt and reads one line. *)
Definition input (prompt : string) : M string :=
  fun st =>
    match stdin st with
    | [] => (Raise EOFError, write prompt st)
    | line :: rest => (Ret line, set_stdin rest (write prompt st))
    end.

(** ** Version-4 UUIDs, as [uuid.uuid4] and [str] produce them *)

Module UUID.

(** [UUID(bytes=os.urandom(16), version=4).int], the sixteen random
    bytes being read as the big-endian integer [r]: the variant and the
    version bits are overwritten. *)
Definition uuid4 (r : Z) : Z :=
  let i := Z.land r (Z.ones 128) in
  let i := Z.land i (Z.lnot (Z.shiftl 0xc000 48)) in
  let i := Z.lor i (Z.shiftl 0x8000 48) in
  let i := Z.land i (Z.lnot (Z.shiftl 0xf000 64)) in
  Z.lor i (Z.shiftl 4 76).

Definition hex_digit (d : Z) : ascii :=
  match d with
  | 0 => "0" | 1 => "1" | 2 => "2" | 3 => "3" | 4 => "4" | 5 => "5"
  | 6 => "6" | 7 => "7" | 8 => "8" | 9 => "9" | 10 => "a" | 11 => "b"
  | 12 => "c" | 13 => "d" | 14 => "e" | _ => "f"
  end%char.

(** The [n] lowest hexadecimal digits of [i], most significant first:
    ['%032x' % i] for [n = 32]. *)
Fixpoint hex (n : nat) (i : Z) : string :=
  match n with
  | O => ""
  | S n' => String (hex_digit (Z.land (Z.shiftr i (4 * Z.of_nat n')) 15)) (hex n' i)
  end.

(** [str(u)]: the 8-4-4-4-12 grouping of the 32 digits. *)
Definition str (i : Z) : string :=
  let x := hex 32 i in
  String.substring 0 8 x +:+ "-" +:+ String.substring 8 4 x +:+ "-"
    +:+ String.substring 12 4 x +:+ "-" +:+ String.substring 16 4 x +:+ "-"
    +:+ String.substring 20 12 x.

End UUID.

(** ** The agent *)

Definition model : string := "gpt-4o".

Definition system_prompt : string :=
  "You are Sierra, an adventurous and cheerful outdoor gear expert. "
  +:+ "Use friendly, trail-inspired language, emojis like 🏕️🌲⛰️, and stay helpful and CONCISE. 3 sentence limit for all responses. "
  +:+ "If a question is unrelated to Sierra Outfitters, still answer politely but stay in character.".

Definition gpt_apology : string :=
  "Oops! Looks like I'm having trouble reaching the trailhead 🥾. Try again in a moment?".

Definition chat_apology : string :=
  "Something went off trail 🌲— please try again shortly!".

Definition order_not_found : string :=
  "Couldn't find an order with that email and order number.".

Definition tracking_url : string :=
  "https://tools.usps.com/go/TrackConfirmAction?tLabels=".

Definition fallback : string :=
  "Product Status: Couldn't find anything that matches. Ask the user to describe what they're looking for in a bit more detail.".

Definition promo_closed : string :=
  "The Early Riser promotion only runs from 8–10 AM Pacific Time. This user does not currently qualify.".

Definition promo_prefix : string := "SIERRA-".

(** [.choices[0].message.content.strip()] applied to the provider's
    answer, inside the [try] block: the left case carries the message of
    the exception that ends the block. *)
Definition stripped_content (c : Completion) : string + string :=
  match c with
  | Raised e => inl e
  | Response [] => inl "list index out of range"
  | Response (None :: _) => inl "'NoneType' object has no attribute 'strip'"
  | Response (Some text :: _) => inr (strip text)
  end.

Definition user_message (text : string) : Message :=
  {| role := user; content := text |}.

(** The request of [call_gpt]: the prompt as the only message. *)
Definition single_turn (prompt : string) (temperature : Q) : Request :=
  {| req_model := model;
     req_messages := [user_message prompt];
     req_temperature := temperature |}.

(** The request of [call_gpt_and_update_history], at temperature 0.7. *)
Definition chat_request (messages : list Message) : Request :=
  {| req_model := model;
     req_messages := messages;
     req_temperature := 0.7 |}.

Definition persona_messages (h : list Message) (new_user_message : string)
  : list Message :=
  [{| role := system; content := system_prompt |}]
    ++ h ++ [user_message new_user_message].

Definition assistant_message (text : string) : Message :=
  {| role := assistant; content := text |}.

Definition intent_prompt (user_input : string) : string :=
  "Classify the user's message into one or more of the following intent categories:" +:+ nl +:+ nl
  +:+ "- order: The user is asking about the status of a specific order they have already placed. "
  +:+ "This includes questions about tracking, shipping, delivery dates, or order numbers." +:+ nl
  +:+ "- recommendation: The user is asking what to buy, looking for gear suggestions, or requesting "
  +:+ "something similar to a product or need (e.g. 'any good hiking backpacks?')." +:+ nl
  +:+ "- early_riser: The user is asking for a discount, promotional code, or any deal. "
  +:+ "This includes general questions about promotions or requests for discounts." +:+ nl
  +:+ "- general: The message doesn’t fit the above — e.g. general conversation, brand questions, greetings, etc." +:+ nl +:+ nl
  +:+ "User message: '" +:+ user_input +:+ "'" +:+ nl +:+ nl
  +:+ "Respond with a comma-separated list of one or more intents from the list above. "
  +:+ "Use only the exact labels: order, recommendation, early_riser, general.".

(** Line 56: split on commas, keep the tokens that are not blank, trimmed. *)
Definition parse_intents (intent_response : string) : list string :=
  strip <$> filter (λ intent, truthy (strip intent)) (split "," intent_response).

Definition tag_selection_prompt (tag_csv query : string) : string :=
  "You are an assistant helping customers find gear." +:+ nl
  +:+ "Available product tags are: " +:+ tag_csv +:+ "." +:+ nl
  +:+ "User said: '" +:+ query +:+ "'" +:+ nl
  +:+ "Choose up to 8 relevant tags from the list based on the user's request."
  +:+ "Respond with only the chosen tags, as a comma-separated list.".

Definition product_line (p : Product) : string :=
  ProductName p +:+ " — " +:+ Description p.

Definition product_selection_prompt (query summary_text : string) : string :=
  "You are an assistant helping customers find gear." +:+ nl
  +:+ "User said: '" +:+ query +:+ "'" +:+ nl
  +:+ "Available products: " +:+ summary_text
  +:+ "Choose ONE of the products that best matches the user's request." +:+ nl
  +:+ "Response format:"
  +:+ "Recommended Purchase for Customer: Product Name - Product Description" +:+ nl
  +:+ "If nothing relevant is available, return the following text: " +:+ fallback.

(** The test of line 85:
    [o["Email"] == email and o["OrderNumber"] == order_number]. *)
Definition order_matches (email order_number : string) (o : Order) : bool :=
  bool_decide (Email o = email) && bool_decide (OrderNumber o = order_number).

Definition order_found (order_number : string) (o : Order) : string :=
  "Order " +:+ order_number +:+ " is " +:+ Status o +:+ ". "
  +:+ "Tracking link: " +:+ tracking_url +:+ TrackingNumber o.

Definition promo_granted (code : string) : string :=
  "This user qualifies for the Early Riser promotion! They may use discount code "
  +:+ code +:+ " for 10% off.".

Definition compiled_prompt (user_input additional_info : string) : string :=
  "User question: " +:+ user_input +:+ ". "
  +:+ "Use the following information to best answer the user's question: "
  +:+ additional_info.

(** Lines 28-33 of [__init__]: the tag index built from the catalog.
    [str_lower] stands for [str.lower]. *)
Definition build_tag_index (str_lower : string -> string) (catalog : list Product)
  : gmap string (list Product) :=
  foldl (λ index product,
           foldl (λ index tag,
                    let normalized_tag := str_lower tag in
                    DefaultDict.append normalized_tag product index)
                 index (Tags product))
        ∅ catalog.

(** What the index lists under the key [k]: the catalog is read in order
    and a product is listed once for each of its tags that normalises to
    [k]. *)
Definition postings (str_lower : string -> string) (k : string)
    (catalog : list Product) : list Product :=
  catalog ≫= λ product,
    (λ _, product) <$> filter (λ tag, str_lower tag = k) (Tags product).

(** [SierraAgent.__init__], given the contents of the two data files. *)
Definition init (str_lower : string -> string)
    (customer_orders : list Order) (product_catalog : list Product) : Agent :=
  {| orders := customer_orders;
     products := product_catalog;
     history := [];
     tag_index := build_tag_index str_lower product_catalog |}.

Section Methods.

Variable W : World.

(** [self.client.chat.completions.create(...)]: the request is recorded
    and the provider answers. *)
Definition create (req : Request) : M Completion :=
  fun st => (Ret (completions_create W (sent st) req), record_request req st).

(** [datetime.now(pytz.timezone("US/Pacific")).hour] *)
Definition now_hour : M Z :=
  fun st => (Ret (pacific_hour W (clock_reads st)), tick_clock st).

(** [uuid.uuid4()] *)
Definition uuid4 : M Z :=
  fun st => (Ret (UUID.uuid4 (urandom16 W (random_draws st))), tick_random st).

Definition call_gpt (prompt : string) (temperature : Q) : M string :=
  completion <- create (single_turn prompt temperature);;
  match stripped_content completion with
  | inr text => ret text
  | inl e => print ("[GPT error] " +:+ e);;; ret gpt_apology
  end.

Definition call_gpt_and_update_history (new_user_message : string) : M string :=
  st <- get;;
  let messages :=
    [{| role := system; content := system_prompt |}]
      ++ history (self st) ++ [user_message new_user_message] in
  completion <- create (chat_request messages);;
  match stripped_content completion with
  | inl e => print ("[GPT error] " +:+ e);;; ret chat_apology
  | inr reply =>
      modify (set_self (λ a, set_history
                 (history a ++ [user_message new_user_message]) a));;;
      modify (set_self (λ a, set_history
                 (history a ++ [{| role := assistant; content := reply |}]) a));;;
      ret reply
  end.

Definition handle_order_info (query : string) : M string :=
  email <- input "Please provide your email: ";;
  order_number <- input "Please provide your order number: ";;
  st <- get;;
  let match_ :=
    List.find (order_matches email order_number) (orders (self st)) in
  ret (match match_ with
       | Some o => order_found order_number o
       | None => order_not_found
       end).

(** Lines 122-124: [matched_products.extend(self.tag_index[tag])] for
    each valid tag; every [self.tag_index[tag]] goes through the
    default dictionary's item access. *)
Fixpoint gather_products (valid_tags : list string)
    (matched_products : list Product) : M (list Product) :=
  match valid_tags with
  | [] => ret matched_products
  | tag :: rest =>
      st <- get;;
      let '(found, index) := DefaultDict.getitem tag (tag_index (self st)) in
      modify (set_self (set_tag_index index));;;
      gather_products rest (matched_products ++ found)
  end.

Definition handle_product_recommendation (query : string) : M string :=
  st <- get;;
  let tag_list := DefaultDict.sorted_keys (tag_index (self st)) in
  let tag_csv := join ", " tag_list in
  tag_response <- call_gpt (tag_selection_prompt tag_csv query) 0;;
  let extracted_tags := strip <$> split "," tag_response in
  st <- get;;
  let valid_tags :=
    filter (λ tag, DefaultDict.contains tag (tag_index (self st)))
           extracted_tags in
  matched_products <- gather_products valid_tags [];;
  match matched_products with
  | [] => ret fallback
  | _ :: _ =>
      let summary_text := join nl (product_line <$> matched_products) in
      product_selection_response <-
        call_gpt (product_selection_prompt query summary_text) 0;;
      ret product_selection_response
  end.

Definition handle_early_riser_promo : M string :=
  hour <- now_hour;;
  if (8 <=? hour) && (hour <? 10) then
    u <- uuid4;;
    let code := promo_prefix +:+ upper (take 4 (UUID.str u)) in
    ret (promo_granted code)
  else ret promo_closed.

(** Lines 58-64 of [handle]: the handlers of the intents found, always
    in the order of the three tests. *)
Definition run_handlers (user_input : string) (intents : list string)
  : M (list string) :=
  let responses := [] in
  responses <-
    (if in_list "order" intents
     then r <- handle_order_info user_input;; ret (responses ++ [r])
     else ret responses);;
  responses <-
    (if in_list "recommendation" intents
     then r <- handle_product_recommendation user_input;; ret (responses ++ [r])
     else ret responses);;
  responses <-
    (if in_list "early_riser" intents
     then r <- handle_early_riser_promo;; ret (responses ++ [r])
     else ret responses);;
  ret responses.

Definition handle (user_input : string) : M string :=
  intent_response <- call_gpt (intent_prompt user_input) 0;;
  let intents := parse_intents intent_response in
  responses <- run_handlers user_input intents;;
  if bool_decide (responses = []) || in_list "general" intents
  then call_gpt_and_update_history user_input
  else
    let additional_info := join nl responses in
    call_gpt_and_update_history (compiled_prompt user_input additional_info).

End Methods.

(** The four labels of the intent prompt. *)
Definition intent_labels : list string :=
  ["order"; "recommendation"; "early_riser"; "general"].

(** [token] differs from [label] only in the case of its letters. *)
Definition case_variant (token label : string) : Prop :=
  token ≠ label ∧ lower_ascii token = label.

(** One of the three tests of lines 59-64: the fragment list contributed
    by a handler, empty when its intent was not found. *)
Definition fragment (fires : bool) (handler : M string) : M (list string) :=
  if fires then r <- handler;; ret [r] else ret [].

(** The load-time data of the agent is the same in both states. *)
Definition same_data (st st' : State) : Prop :=
  orders (self st') = orders (self st)
  ∧ products (self st') = products (self st)
  ∧ tag_index (self st') = tag_index (self st).

(** ** A scripted world, for running the agent on concrete inputs *)

Module Demo.

(** The provider gives its answers in a fixed sequence, whatever the
    requests; once the script is exhausted it fails. *)
Definition scripted (answers : list Completion) (hour : Z) (entropy : Z) : World :=
  {| completions_create := λ earlier _,
       default (Raised "connection refused") (answers !! length earlier);
     pacific_hour := λ _, hour;
     urandom16 := λ _, entropy |}.

Definition says (text : string) : Completion := Response [Some text].

Definition tent : Product :=
  {| ProductName := "Summit Tent"; Description := "Two-person alpine tent";
     Tags := ["Camping"; "Shelter"] |}.

Definition stove : Product :=
  {| ProductName := "Trail Stove"; Description := "Compact gas stove";
     Tags := ["camping"; "Cooking"] |}.

Definition order1 : Order :=
  {| Email := "ann@example.com"; OrderNumber := "#W001";
     Status := "delivered"; TrackingNumber := "TRK123456789" |}.

Definition agent0 : Agent := init lower_ascii [order1] [tent; stove].

Definition start (lines : list string) : State :=
  {| self := agent0; sent := []; stdin := lines; stdout := [];
     clock_reads := 0; random_draws := 0 |}.

End Demo.

Module ScenarioC.

(** The classifier answers [order, general]; the user then enters an
    email and an order number, and the persona chat answers. *)
Definition world : World :=
  Demo.scripted [Demo.says "order, general"; Demo.says " On its way! "] 9 0.

Definition st0 : State := Demo.start ["ann@example.com"; "#W001"].

Definition st1 : State := (call_gpt world (intent_prompt "where is my order") 0 st0).2.

Definition st2 : State :=
  (run_handlers world "where is my order" ["order"; "general"] st1).2.

End ScenarioC.

Module ScenarioB.

(** The classifier answers [early_riser, order]: the promotion is named
    first, yet the order fragment comes first. *)
Definition world : World :=
  Demo.scripted [Demo.says "early_riser, order"; Demo.says " Enjoy! "] 11 0.

Definition st0 : State := Demo.start ["ann@example.com"; "#W001"].

Definition st1 : State := (call_gpt world (intent_prompt "status and deals?") 0 st0).2.

Definition responses : list string :=
  ["Order #W001 is delivered. Tracking link: https://tools.usps.com/go/TrackConfirmAction?tLabels=TRK123456789";
   promo_closed].

Definition st2 : State :=
  (run_handlers world "status and deals?" ["early_riser"; "order"] st1).2.

End ScenarioB.

(** ** The chat loop of [main.py] *)

Definition welcome : string :=
  "🌲 Welcome to the Sierra Assistant! Ask me anything. (Type 'exit' to quit)" +:+ nl.

Definition farewell : string :=
  "🏕️ Sierra Agent: Until next time — stay wild out there!".

Definition reply_label : string := "🏔️ Sierra Agent:".

Definition you_prompt : string := "🧗 You: ".

Section Main.

Variable str_lower : string -> string.
Variable W : World.

(** Line 13: [user_input.strip().lower() in {"exit", "quit"}]. *)
Definition is_quit (user_input : string) : bool :=
  in_list (str_lower (strip user_input)) ["exit"; "quit"].

(** Lines 10-17: the [while True] loop, unrolled at most [fuel] times;
    [None] is returned when the fuel runs out before the loop ends. *)
Fixpoint chat_loop (fuel : nat) : M (option unit) :=
  match fuel with
  | O => ret None
  | S fuel' =>
      user_input <- input you_prompt;;
      if is_quit user_input
      then print farewell;;; ret (Some tt)
      else
        reply <- handle W user_input;;
        print (reply_label +:+ " " +:+ reply);;;
        chat_loop fuel'
  end.

(** The process state once [SierraAgent()] is built, the console holding
    [lines]. *)
Definition boot (customer_orders : list Order) (product_catalog : list Product)
    (lines : list string) : State :=
  {| self := init str_lower customer_orders product_catalog;
     sent := []; stdin := lines; stdout := [];
     clock_reads := 0; random_draws := 0 |}.

(** [main.py] from line 7 on. *)
Definition main (fuel : nat) : M (option unit) :=
  print welcome;;; chat_loop fuel.

End Main.

(** The history is a sequence of exchanges: a user turn followed by an
    assistant turn. *)
Fixpoint exchanges (h : list Message) : bool :=
  match h with
  | [] => true
  | u :: a :: rest =>
      match role u, role a with
      | user, assistant => exchanges rest
      | _, _ => false
      end
  | [_] => false
  end.

(** The agent [a'] is a later stage of the agent [a]: the same load-time
    data, and a history that extends the history of [a] and is made of
    exchanges if the history of [a] was. *)
Definition evolves (a a' : Agent) : Prop :=
  orders a' = orders a
  ∧ products a' = products a
  ∧ tag_index a' = tag_index a
  ∧ (∃ added, history a' = history a ++ added)
  ∧ (exchanges (history a) = true → exchanges (history a') = true).

(** The number of product entries held by an index, over all its keys. *)
Definition total_entries (index : gmap string (list Product)) : nat :=
  map_fold (λ _ entry n, (length entry + n)%nat) 0%nat index.

(** The number of tags carried by the products of a catalog. *)
Definition total_tags (catalog : list Product) : nat :=
  sum_list (length ∘ Tags <$> catalog).

(** * Properties *)

(** ** Strings and UUIDs on examples *)

Example strip_spaces : strip "  order  " = "order".
Proof. vm_compute. reflexivity. Qed.

Example strip_inner_kept : strip (nl +:+ " early riser" +:+ nl) = "early riser".
Proof. vm_compute. reflexivity. Qed.

Example strip_nbsp : strip (utf8 160 +:+ "a" +:+ utf8 8195) = "a".
Proof. vm_compute. reflexivity. Qed.

Example split_commas : split "," "a,,b," = ["a"; ""; "b"; ""].
Proof. vm_compute. reflexivity. Qed.

Example upper_hex : upper "a3f0" = "A3F0".
Proof. vm_compute. reflexivity. Qed.

Example uuid_str_example :
  UUID.str (UUID.uuid4 0x1b4e28ba2fa111d2883f0016d3cca427)
  = "1b4e28ba-2fa1-41d2-883f-0016d3cca427".
Proof. vm_compute. reflexivity. Qed.


(** ** The gateway *)

Section Gateway.

Variable W : World.

(** The state after a request was sent and its failure [e] logged. *)
Lemma call_gpt_run prompt temperature st :
  call_gpt W prompt temperature st =
    let req := single_turn prompt temperature in
    match stripped_content (completions_create W (sent st) req) with
    | inr text => (Ret text, record_request req st)
    | inl e =>
        (Ret gpt_apology,
         write ("[GPT error] " +:+ e +:+ nl) (record_request req st))
    end.
Proof.
  unfold call_gpt, bind, create. cbv zeta.
  destruct (stripped_content _); reflexivity.
Qed.

Lemma call_gpt_self prompt temperature st :
  self (call_gpt W prompt temperature st).2 = self st.
Proof.
  rewrite call_gpt_run. cbv zeta.
  destruct (stripped_content _); reflexivity.
Qed.

Lemma call_gpt_sent prompt temperature st :
  sent (call_gpt W prompt temperature st).2
  = sent st ++ [single_turn prompt temperature].
Proof.
  rewrite call_gpt_run. cbv zeta.
  destruct (stripped_content _); reflexivity.
Qed.

Lemma call_gpt_returns prompt temperature st :
  ∃ reply, (call_gpt W prompt temperature st).1 = Ret reply.
Proof.
  rewrite call_gpt_run. cbv zeta.
  destruct (stripped_content _); eauto.
Qed.

End Gateway.

(** C8. Whatever the prompt, [call_gpt] never raises: it returns a string.
    When the provider raises an exception [e], the error is logged on the
    console and the fixed apology is returned; when the provider answers
    with a text, that text is returned with the surrounding whitespace
    stripped. *)
Theorem call_gpt_never_raises (W : World) (prompt : string) (temperature : Q)
    (st : State) :
  let req := single_turn prompt temperature in
  (∃ reply st', call_gpt W prompt temperature st = (Ret reply, st'))
  ∧ (∀ e, completions_create W (sent st) req = Raised e →
       call_gpt W prompt temperature st
       = (Ret gpt_apology,
          write ("[GPT error] " +:+ e +:+ nl) (record_request req st)))
  ∧ (∀ text others,
       completions_create W (sent st) req = Response (Some text :: others) →
       call_gpt W prompt temperature st
       = (Ret (strip text), record_request req st)).
Proof.
  intros req. split; [|split].
  - destruct (call_gpt_returns W prompt temperature st) as [reply Hr].
    exists reply, (call_gpt W prompt temperature st).2.
    rewrite <- Hr. apply surjective_pairing.
  - intros e He. rewrite call_gpt_run. cbv zeta. fold req. rewrite He. reflexivity.
  - intros text others He. rewrite call_gpt_run. cbv zeta. fold req.
    rewrite He. reflexivity.
Qed.

Lemma call_gpt_never_raises_witness :
  call_gpt (Demo.scripted [Raised "timeout"] 9 0) "hello" 0 (Demo.start [])
  = (Ret gpt_apology,
     write ("[GPT error] timeout" +:+ nl)
       (record_request (single_turn "hello" 0) (Demo.start []))).
Proof.
  apply (proj1 (proj2 (call_gpt_never_raises
                         (Demo.scripted [Raised "timeout"] 9 0) "hello" 0
                         (Demo.start []))) "timeout").
  reflexivity.
Defined.

(** ** The persona chat and the conversation history *)

Section PersonaChat.

Variable W : World.

Lemma chat_run msg st :
  call_gpt_and_update_history W msg st =
    let req := chat_request (persona_messages (history (self st)) msg) in
    match stripped_content (completions_create W (sent st) req) with
    | inl e =>
        (Ret chat_apology,
         write ("[GPT error] " +:+ e +:+ nl) (record_request req st))
    | inr reply =>
        (Ret reply,
         set_self (set_history
                     (history (self st)
                        ++ [user_message msg; assistant_message reply]))
           (record_request req st))
    end.
Proof.
  unfold call_gpt_and_update_history, bind, get, create, persona_messages.
  cbv zeta. cbn [fst snd].
  destruct (stripped_content _) as [e|reply]; [reflexivity|].
  unfold modify, ret, set_self, set_history, record_request; cbn.
  rewrite <- app_assoc. reflexivity.
Qed.

Lemma chat_sent msg st :
  sent (call_gpt_and_update_history W msg st).2
  = sent st ++ [chat_request (persona_messages (history (self st)) msg)].
Proof.
  rewrite chat_run. cbv zeta. destruct (stripped_content _); reflexivity.
Qed.

Lemma chat_returns msg st :
  ∃ reply, (call_gpt_and_update_history W msg st).1 = Ret reply.
Proof.
  rewrite chat_run. cbv zeta. destruct (stripped_content _); eauto.
Qed.

End PersonaChat.

(** C2. The persona chat is transactional on the history.  When the
    gateway call yields a reply, the call returns it and the history is the
    earlier history followed by exactly two turns, the new message as a
    user turn and the reply as an assistant turn.  When the gateway call
    fails, the fixed apology is returned and the history is unchanged. *)
Theorem chat_history_transactional (W : World) (new_user_message : string)
    (st : State) :
  let req := chat_request (persona_messages (history (self st)) new_user_message) in
  let outcome := stripped_content (completions_create W (sent st) req) in
  let run := call_gpt_and_update_history W new_user_message st in
  (∀ reply, outcome = inr reply →
     run.1 = Ret reply
     ∧ history (self run.2)
       = history (self st)
           ++ [user_message new_user_message; assistant_message reply])
  ∧ (∀ e, outcome = inl e →
       run.1 = Ret chat_apology
       ∧ history (self run.2) = history (self st)).
Proof.
  intros req outcome run. subst run. rewrite chat_run. cbv zeta.
  fold req. fold outcome. split.
  - intros reply ->. split; reflexivity.
  - intros e ->. split; reflexivity.
Qed.

Lemma chat_history_transactional_witness :
  let run := call_gpt_and_update_history
               (Demo.scripted [Demo.says " Happy trails! "] 9 0) "hi"
               (Demo.start []) in
  run.1 = Ret "Happy trails!"
  ∧ history (self run.2)
    = [user_message "hi"; assistant_message "Happy trails!"].
Proof.
  apply (proj1 (chat_history_transactional
                  (Demo.scripted [Demo.says " Happy trails! "] 9 0) "hi"
                  (Demo.start [])) "Happy trails!").
  vm_compute. reflexivity.
Defined.

Example chat_failure_leaves_no_trace :
  let run := call_gpt_and_update_history
               (Demo.scripted [Raised "timeout"] 9 0) "hi" (Demo.start []) in
  run.1 = Ret chat_apology ∧ history (self run.2) = [].
Proof. vm_compute. split; reflexivity. Qed.

(** ** The early-riser promotion *)

Lemma upper_hex_digit d : is_upper_alnum (upper_char (UUID.hex_digit d)) = true.
Proof.
  destruct d as [|p|p]; [reflexivity| |reflexivity].
  do 4 (try destruct p as [p|p|]); reflexivity.
Qed.

Lemma substring_empty s : String.substring 0 0 s = "".
Proof. destruct s; reflexivity. Qed.

(** The first four characters of a UUID string are the four leading
    hexadecimal digits. *)
Lemma uuid_str_take i :
  take 4 (UUID.str i) = UUID.hex 4 (Z.shiftr i 112).
Proof.
  unfold UUID.str, take.
  change (UUID.hex 32 i) with
    (String (UUID.hex_digit (Z.land (Z.shiftr i 124) 15))
       (String (UUID.hex_digit (Z.land (Z.shiftr i 120) 15))
          (String (UUID.hex_digit (Z.land (Z.shiftr i 116) 15))
             (String (UUID.hex_digit (Z.land (Z.shiftr i 112) 15))
                (UUID.hex 28 i))))).
  generalize (UUID.hex 28 i). intros rest.
  change (UUID.hex 4 (Z.shiftr i 112)) with
    (String (UUID.hex_digit (Z.land (Z.shiftr (Z.shiftr i 112) 12) 15))
       (String (UUID.hex_digit (Z.land (Z.shiftr (Z.shiftr i 112) 8) 15))
          (String (UUID.hex_digit (Z.land (Z.shiftr (Z.shiftr i 112) 4) 15))
             (String (UUID.hex_digit (Z.land (Z.shiftr (Z.shiftr i 112) 0) 15))
                "")))).
  rewrite !Z.shiftr_shiftr by lia.
  change (112 + 12) with 124. change (112 + 8) with 120.
  change (112 + 4) with 116. change (112 + 0) with 112.
  generalize (UUID.hex_digit (Z.land (Z.shiftr i 124) 15)).
  generalize (UUID.hex_digit (Z.land (Z.shiftr i 120) 15)).
  generalize (UUID.hex_digit (Z.land (Z.shiftr i 116) 15)).
  generalize (UUID.hex_digit (Z.land (Z.shiftr i 112) 15)).
  intros d c b a.
  cbn [String.substring]. unfold String.app.
  cbn [String.append String.substring].
  f_equal. f_equal. f_equal. f_equal. apply substring_empty.
Qed.

Lemma upper_hex_alnum n i :
  String.length (upper (UUID.hex n i)) = n
  ∧ all_chars is_upper_alnum (upper (UUID.hex n i)) = true.
Proof.
  induction n as [|n [IHlen IHall]]; [split; reflexivity|].
  cbn [UUID.hex upper map_chars String.length all_chars]. split.
  - f_equal. exact IHlen.
  - rewrite upper_hex_digit. exact IHall.
Qed.

Lemma contains_middle pre x post : Contains (pre +:+ x +:+ post) x.
Proof. exists pre, post. reflexivity. Qed.

(** C3. When the Pacific local hour [h] read from the clock satisfies
    [8 <= h < 10], the early-riser handler returns the qualification
    message, which contains a code made of the prefix SIERRA- and four
    characters that are digits or upper-case letters.  For every other
    hour it returns one fixed string. *)
Theorem early_riser_window (W : World) (st : State) :
  let h := pacific_hour W (clock_reads st) in
  (8 ≤ h < 10 →
     ∃ chars,
       String.length chars = 4%nat
       ∧ all_chars is_upper_alnum chars = true
       ∧ (handle_early_riser_promo W st).1
         = Ret ("This user qualifies for the Early Riser promotion! They may use discount code "
                  +:+ ("SIERRA-" +:+ chars) +:+ " for 10% off.")
       ∧ Contains
           ("This user qualifies for the Early Riser promotion! They may use discount code "
              +:+ ("SIERRA-" +:+ chars) +:+ " for 10% off.")
           ("SIERRA-" +:+ chars))
  ∧ (¬ (8 ≤ h < 10) →
       handle_early_riser_promo W st = (Ret promo_closed, tick_clock st)).
Proof.
  intros h. unfold handle_early_riser_promo, bind, now_hour. fold h. split.
  - intros [Hlo Hhi].
    rewrite (proj2 (Z.leb_le 8 h) Hlo), (proj2 (Z.ltb_lt h 10) Hhi).
    cbn [andb]. unfold uuid4, ret. cbn [fst].
    rewrite uuid_str_take.
    set (top := Z.shiftr _ 112).
    destruct (upper_hex_alnum 4 top) as [Hlen Hall].
    exists (upper (UUID.hex 4 top)).
    split; [exact Hlen|]. split; [exact Hall|].
    split; [reflexivity|]. apply contains_middle.
  - intros Hout.
    destruct (8 <=? h) eqn:Hlo; destruct (h <? 10) eqn:Hhi; try reflexivity.
    exfalso. apply Hout. split; [apply Z.leb_le | apply Z.ltb_lt]; assumption.
Qed.

Lemma early_riser_window_witness :
  ∃ chars,
    String.length chars = 4%nat
    ∧ all_chars is_upper_alnum chars = true
    ∧ (handle_early_riser_promo
         (Demo.scripted [] 9 0x1b4e28ba2fa111d2883f0016d3cca427)
         (Demo.start [])).1
      = Ret ("This user qualifies for the Early Riser promotion! They may use discount code "
               +:+ ("SIERRA-" +:+ chars) +:+ " for 10% off.")
    ∧ Contains
        ("This user qualifies for the Early Riser promotion! They may use discount code "
           +:+ ("SIERRA-" +:+ chars) +:+ " for 10% off.")
        ("SIERRA-" +:+ chars).
Proof.
  apply (proj1 (early_riser_window
                  (Demo.scripted [] 9 0x1b4e28ba2fa111d2883f0016d3cca427)
                  (Demo.start []))).
  cbn. lia.
Defined.

Example early_riser_at_nine :
  (handle_early_riser_promo
     (Demo.scripted [] 9 0x1b4e28ba2fa111d2883f0016d3cca427) (Demo.start [])).1
  = Ret "This user qualifies for the Early Riser promotion! They may use discount code SIERRA-1B4E for 10% off.".
Proof. vm_compute. reflexivity. Qed.

Example early_riser_at_ten :
  (handle_early_riser_promo (Demo.scripted [] 10 7) (Demo.start [])).1
  = Ret promo_closed.
Proof. vm_compute. reflexivity. Qed.

(** ** Order lookup *)

Lemma append_assoc (a b c : string) : (a +:+ b) +:+ c = a +:+ b +:+ c.
Proof.
  unfold String.app. induction a as [|x a IH]; cbn; [reflexivity|].
  f_equal. exact IH.
Qed.

Lemma append_empty_r (a : string) : a +:+ "" = a.
Proof.
  unfold String.app. induction a as [|x a IH]; cbn; [reflexivity|].
  f_equal. exact IH.
Qed.

Lemma contains_self x : Contains x x.
Proof. exists "", "". rewrite append_empty_r. reflexivity. Qed.

Lemma contains_prefix x post : Contains (x +:+ post) x.
Proof. exists "", post. reflexivity. Qed.

Lemma contains_app_l p s x : Contains s x → Contains (p +:+ s) x.
Proof.
  intros (pre & post & ->). exists (p +:+ pre), post.
  rewrite append_assoc. reflexivity.
Qed.

Lemma order_matches_spec email order_number o :
  order_matches email order_number o = true
  ↔ Email o = email ∧ OrderNumber o = order_number.
Proof.
  unfold order_matches.
  rewrite andb_true_iff, !bool_decide_eq_true. reflexivity.
Qed.

(** The scan stops at the first matching order. *)
Lemma find_first_match {A} (f : A -> bool) before x after :
  (∀ y, y ∈ before → f y = false) → f x = true →
  List.find f (before ++ x :: after) = Some x.
Proof.
  intros Hbefore Hx. induction before as [|y before IH]; cbn.
  - rewrite Hx. reflexivity.
  - rewrite (Hbefore y) by (left). apply IH.
    intros z Hz. apply Hbefore. right. exact Hz.
Qed.

Lemma find_no_match {A} (f : A -> bool) l :
  (∀ y, y ∈ l → f y = false) → List.find f l = None.
Proof.
  intros Hl. induction l as [|y l IH]; cbn; [reflexivity|].
  rewrite (Hl y) by left. apply IH. intros z Hz. apply Hl. right. exact Hz.
Qed.

Section OrderLookup.

Lemma handle_order_info_run (query : string) email order_number rest st :
  stdin st = email :: order_number :: rest →
  handle_order_info query st
  = (Ret match List.find (order_matches email order_number)
                          (orders (self st)) with
         | Some o => order_found order_number o
         | None => order_not_found
         end,
     set_stdin rest
       (write "Please provide your order number: "
          (write "Please provide your email: " st))).
Proof.
  intros Hin. unfold handle_order_info, bind, input, get, ret.
  rewrite Hin. cbn. reflexivity.
Qed.

(** Without two lines on the console the handler raises [EOFError]. *)
Lemma handle_order_info_eof (query : string) st :
  (length (stdin st) < 2)%nat →
  (handle_order_info query st).1 = Raise EOFError.
Proof.
  intros Hlen. unfold handle_order_info, bind, input, get, ret.
  destruct (stdin st) as [|email [|order_number rest]] eqn:Hin; cbn in *.
  - reflexivity.
  - reflexivity.
  - lia.
Qed.

End OrderLookup.

(** C4. Order lookup is by exact match.  With an email and an order
    number entered on the console: when no stored order carries exactly
    this pair, the handler returns the fixed not-found string; when the
    scan meets an order carrying exactly this pair, the handler returns
    the status line of that order, which contains its stored status and
    the carrier URL ending in its stored tracking number.  The order met
    is the first with this pair, hence the only one when the pair
    identifies the order. *)
Theorem order_lookup_exact (query email order_number : string)
    (rest : list string) (st : State) :
  stdin st = email :: order_number :: rest →
  let reply := (handle_order_info query st).1 in
  ((∀ o, o ∈ orders (self st) →
         ¬ (Email o = email ∧ OrderNumber o = order_number)) →
     reply = Ret "Couldn't find an order with that email and order number.")
  ∧ (∀ before o after,
       orders (self st) = before ++ o :: after →
       (∀ o', o' ∈ before →
              ¬ (Email o' = email ∧ OrderNumber o' = order_number)) →
       Email o = email → OrderNumber o = order_number →
       reply = Ret (order_found order_number o)
       ∧ Contains (order_found order_number o) (Status o)
       ∧ Contains (order_found order_number o)
           ("https://tools.usps.com/go/TrackConfirmAction?tLabels="
              +:+ TrackingNumber o))
  ∧ (∀ o, o ∈ orders (self st) →
       Email o = email → OrderNumber o = order_number →
       (∀ o', o' ∈ orders (self st) →
              Email o' = email → OrderNumber o' = order_number → o' = o) →
       reply = Ret (order_found order_number o)).
Proof.
  intros Hin reply. subst reply.
  rewrite (handle_order_info_run query email order_number rest st Hin).
  cbn [fst].
  assert (Hneg : ∀ l : list Order,
             (∀ o, o ∈ l → ¬ (Email o = email ∧ OrderNumber o = order_number)) →
             ∀ o, o ∈ l → order_matches email order_number o = false).
  { intros l Hl o Ho. apply not_true_is_false.
    rewrite order_matches_spec. apply Hl. exact Ho. }
  split; [|split].
  - intros Hmiss. rewrite find_no_match by (apply Hneg; exact Hmiss).
    reflexivity.
  - intros before o after Hsplit Hbefore Hemail Hnumber.
    rewrite Hsplit, (find_first_match _ before o after).
    + split; [reflexivity|]. unfold order_found, tracking_url. split.
      * do 3 apply contains_app_l. apply contains_prefix.
      * do 6 apply contains_app_l. apply contains_self.
    + apply Hneg. exact Hbefore.
    + apply order_matches_spec. split; assumption.
  - intros o Ho Hemail Hnumber Hunique.
    destruct (List.find (order_matches email order_number) (orders (self st)))
      as [o'|] eqn:Hfind.
    + apply find_some in Hfind as [Hin' Hm].
      apply order_matches_spec in Hm as [He Hn].
      rewrite (Hunique o'); [reflexivity| |exact He|exact Hn].
      apply list_elem_of_In. exact Hin'.
    + exfalso. eapply find_none in Hfind; [|apply list_elem_of_In; exact Ho].
      assert (order_matches email order_number o = true) as Ht
        by (apply order_matches_spec; split; assumption).
      congruence.
Qed.

Lemma order_lookup_exact_witness :
  (handle_order_info "where is my order"
     (Demo.start ["ann@example.com"; "#W001"])).1
  = Ret "Order #W001 is delivered. Tracking link: https://tools.usps.com/go/TrackConfirmAction?tLabels=TRK123456789".
Proof.
  destruct (order_lookup_exact "where is my order" "ann@example.com" "#W001" []
              (Demo.start ["ann@example.com"; "#W001"]) eq_refl)
    as (_ & Hhit & _).
  destruct (Hhit [] Demo.order1 [] eq_refl) as (Hreply & _).
  - intros o' Ho'. inversion Ho'.
  - reflexivity.
  - reflexivity.
  - exact Hreply.
Defined.

(** No case normalisation: the stored email in upper case is not found. *)
Example order_lookup_case_sensitive :
  (handle_order_info "where is my order"
     (Demo.start ["ANN@EXAMPLE.COM"; "#W001"])).1
  = Ret order_not_found.
Proof. vm_compute. reflexivity. Qed.

(** ** The tag index *)

Module Index.

Import DefaultDict.

Lemma extend_extend {V} (entry : option (list V)) l1 l2 :
  extend (extend entry l1) l2 = extend entry (l1 ++ l2).
Proof.
  destruct l1 as [|x l1]; [reflexivity|].
  destruct l2 as [|y l2]; cbn.
  - rewrite app_nil_r. reflexivity.
  - rewrite <- app_assoc. reflexivity.
Qed.

Lemma lookup_append {V} (k k' : string) (x : V) (d : gmap string (list V)) :
  DefaultDict.append k x d !! k'
  = if decide (k = k') then Some (default [] (d !! k) ++ [x]) else d !! k'.
Proof.
  unfold DefaultDict.append, DefaultDict.getitem.
  destruct (d !! k) as [v|] eqn:Hk; case_decide as Hkk; subst.
  - rewrite lookup_insert_eq. reflexivity.
  - rewrite lookup_insert_ne by assumption. reflexivity.
  - rewrite lookup_insert_eq. reflexivity.
  - rewrite !lookup_insert_ne by assumption. reflexivity.
Qed.

Section Build.

Variable str_lower : string -> string.

(** The inner loop, over the tags of one product. *)
Lemma lookup_tags (p : Product) (tags : list string)
    (d : gmap string (list Product)) (k : string) :
  foldl (λ index tag, DefaultDict.append (str_lower tag) p index) d tags !! k
  = extend (d !! k) ((λ _, p) <$> filter (λ tag, str_lower tag = k) tags).
Proof.
  induction tags as [|tag tags IH] in d |- *; [reflexivity|].
  cbn [foldl]. rewrite IH, lookup_append, filter_cons.
  case_decide as Htag.
  - rewrite fmap_cons.
    change (Some (default [] (d !! str_lower tag) ++ [p]))
      with (extend (d !! str_lower tag) [p]).
    rewrite extend_extend. subst k. reflexivity.
  - reflexivity.
Qed.

(** The outer loop, over the catalog. *)
Lemma lookup_catalog (catalog : list Product)
    (d : gmap string (list Product)) (k : string) :
  foldl (λ index product,
           foldl (λ index tag,
                    let normalized_tag := str_lower tag in
                    DefaultDict.append normalized_tag product index)
                 index (Tags product))
        d catalog !! k
  = extend (d !! k) (postings str_lower k catalog).
Proof.
  induction catalog as [|p catalog IH] in d |- *; [reflexivity|].
  cbn [foldl]. rewrite IH. cbv zeta. rewrite lookup_tags.
  rewrite extend_extend. reflexivity.
Qed.

Lemma lookup_build (catalog : list Product) (k : string) :
  build_tag_index str_lower catalog !! k
  = extend None (postings str_lower k catalog).
Proof.
  unfold build_tag_index. rewrite lookup_catalog, lookup_empty. reflexivity.
Qed.

Lemma elem_of_postings (catalog : list Product) (k : string) (p : Product) :
  p ∈ postings str_lower k catalog
  ↔ p ∈ catalog ∧ ∃ tag, tag ∈ Tags p ∧ str_lower tag = k.
Proof.
  unfold postings. rewrite list_elem_of_bind. split.
  - intros (q & Hp & Hq). apply list_elem_of_fmap in Hp as (tag & -> & Htag).
    apply list_elem_of_filter in Htag as [Hk Htag]. eauto.
  - intros (Hp & tag & Htag & Hk). exists p. split; [|exact Hp].
    apply list_elem_of_fmap. exists tag. split; [reflexivity|].
    apply list_elem_of_filter. split; assumption.
Qed.

Lemma lookup_build_Some (catalog : list Product) (k : string) l :
  build_tag_index str_lower catalog !! k = Some l
  ↔ l = postings str_lower k catalog ∧ l ≠ [].
Proof.
  rewrite lookup_build. unfold extend.
  destruct (postings str_lower k catalog) as [|p ps]; cbn.
  - split; [discriminate|]. intros [-> H]. congruence.
  - split; [intros [= <-]; split; [reflexivity|discriminate]|].
    intros [-> _]. reflexivity.
Qed.

(** A product whose tags have distinct normal forms is listed at most
    once under a key. *)
Lemma occurrences_nodup (p : Product) (tags : list string) (k : string) :
  NoDup (str_lower <$> tags) →
  (λ _, p) <$> filter (λ tag, str_lower tag = k) tags
  = if decide (k ∈ str_lower <$> tags) then [p] else [].
Proof.
  induction tags as [|tag tags IH]; intros Hnodup.
  - case_decide as Hk; [inversion Hk | reflexivity].
  - rewrite fmap_cons in Hnodup. apply NoDup_cons in Hnodup as [Hnew Hrest].
    rewrite filter_cons. specialize (IH Hrest).
    destruct (decide (str_lower tag = k)) as [<-|Hne].
    + rewrite fmap_cons, IH.
      rewrite decide_False by exact Hnew.
      rewrite decide_True by (rewrite fmap_cons; left).
      reflexivity.
    + rewrite IH. rewrite fmap_cons.
      destruct (decide (k ∈ str_lower <$> tags)) as [Hin|Hout].
      * rewrite decide_True by (right; exact Hin). reflexivity.
      * rewrite decide_False; [reflexivity|].
        intros [Heq|Hin]%elem_of_cons; [congruence|contradiction].
Qed.

(** No key of the index holds an empty list. *)
Lemma build_nonempty (catalog : list Product) (k : string) :
  build_tag_index str_lower catalog !! k ≠ Some [].
Proof.
  intros H. apply lookup_build_Some in H as [_ H]. congruence.
Qed.

End Build.

End Index.

(** C7. After startup the keys of the tag index are exactly the lowercased
    tags of the catalog; every product is listed under each of its tags,
    lowercased; every product listed under a key carries a tag that
    lowercases to the key; and the list under a key follows the catalog
    order, one entry per tag of the product that lowercases to the key,
    so that it is the catalog filtered by the key when no product carries
    two tags with the same lowercase form.  Lists of different keys are
    independent: a product is repeated under each of its tags. *)
Theorem tag_index_after_startup (str_lower : string -> string)
    (customer_orders : list Order) (catalog : list Product) :
  let index := tag_index (init str_lower customer_orders catalog) in
  dom index = list_to_set (str_lower <$> (catalog ≫= Tags))
  ∧ (∀ P T, P ∈ catalog → T ∈ Tags P →
       ∃ l, index !! str_lower T = Some l ∧ P ∈ l)
  ∧ (∀ k l P, index !! k = Some l → P ∈ l →
       P ∈ catalog ∧ ∃ T, T ∈ Tags P ∧ str_lower T = k)
  ∧ (∀ k l, index !! k = Some l → l = postings str_lower k catalog)
  ∧ ((∀ P, P ∈ catalog → NoDup (str_lower <$> Tags P)) →
     ∀ k l, index !! k = Some l →
       l = filter (λ P, k ∈ str_lower <$> Tags P) catalog).
Proof.
  intros index. subst index. cbn [init tag_index].
  assert (Hlisted : ∀ P T, P ∈ catalog → T ∈ Tags P →
            ∃ l, build_tag_index str_lower catalog !! str_lower T = Some l
                 ∧ P ∈ l).
  { intros P T HP HT.
    assert (P ∈ postings str_lower (str_lower T) catalog) as Hin
      by (apply Index.elem_of_postings; eauto).
    exists (postings str_lower (str_lower T) catalog). split; [|exact Hin].
    apply Index.lookup_build_Some. split; [reflexivity|].
    intros Hnil. rewrite Hnil in Hin. inversion Hin. }
  assert (Hsound : ∀ k l P,
            build_tag_index str_lower catalog !! k = Some l → P ∈ l →
            P ∈ catalog ∧ ∃ T, T ∈ Tags P ∧ str_lower T = k).
  { intros k l P Hk HP. apply Index.lookup_build_Some in Hk as [-> _].
    apply Index.elem_of_postings in HP. exact HP. }
  split; [|split; [exact Hlisted|split; [exact Hsound|split]]].
  - apply set_eq. intros k.
    rewrite elem_of_dom, elem_of_list_to_set, list_elem_of_fmap. split.
    + intros [l Hl].
      destruct l as [|P l]; [exfalso; eapply Index.build_nonempty; eauto|].
      destruct (Hsound k (P :: l) P Hl) as (HP & T & HT & HTk); [left|].
      exists T. split; [congruence|]. apply list_elem_of_bind. eauto.
    + intros (T & -> & HT). apply list_elem_of_bind in HT as (P & HT & HP).
      destruct (Hlisted P T HP HT) as (l & Hl & _). eauto.
  - intros k l Hk. apply Index.lookup_build_Some in Hk as [-> _]. reflexivity.
  - intros Hnodup k l Hk. apply Index.lookup_build_Some in Hk as [-> _].
    unfold postings. clear Hlisted Hsound.
    induction catalog as [|P catalog IH]; [reflexivity|].
    rewrite bind_cons, filter_cons, IH
      by (intros Q HQ; apply Hnodup; right; exact HQ).
    assert (HP : NoDup (str_lower <$> Tags P)) by (apply Hnodup; left).
    rewrite (Index.occurrences_nodup str_lower P (Tags P) k HP).
    case_decide; reflexivity.
Qed.

Lemma tag_index_after_startup_witness :
  ∃ l, tag_index Demo.agent0 !! lower_ascii "Camping" = Some l ∧ Demo.tent ∈ l.
Proof.
  apply (proj1 (proj2 (tag_index_after_startup lower_ascii [Demo.order1]
                         [Demo.tent; Demo.stove])) Demo.tent "Camping").
  - left.
  - left.
Defined.

(** Both products carry the tag, one as [Camping] and one as [camping]. *)
Example tag_index_camping :
  tag_index Demo.agent0 !! "camping" = Some [Demo.tent; Demo.stove].
Proof. vm_compute. reflexivity. Qed.

Example tag_index_keys :
  DefaultDict.sorted_keys (tag_index Demo.agent0)
  = ["camping"; "cooking"; "shelter"].
Proof. vm_compute. reflexivity. Qed.

(** ** Product recommendation *)

Lemma set_tag_index_same st :
  set_self (set_tag_index (tag_index (self st))) st = st.
Proof. destruct st as [[? ? ? ?] ? ? ? ? ?]. reflexivity. Qed.

(** Item access at a key that is present leaves the dictionary as it is;
    at a missing key it adds the key. *)
Lemma getitem_present {V} (k : string) (d : gmap string (list V)) v :
  d !! k = Some v → DefaultDict.getitem k d = (v, d).
Proof. intros Hk. unfold DefaultDict.getitem. rewrite Hk. reflexivity. Qed.

Lemma getitem_missing {V} (k : string) (d : gmap string (list V)) :
  d !! k = None → DefaultDict.getitem k d = ([], <[k := []]> d).
Proof. intros Hk. unfold DefaultDict.getitem. rewrite Hk. reflexivity. Qed.

Lemma contains_spec {V} (k : string) (d : gmap string (list V)) :
  DefaultDict.contains k d ↔ is_Some (d !! k).
Proof. unfold DefaultDict.contains. apply bool_decide_spec. Qed.

Lemma filter_none {A} (P : A → Prop) `{∀ x, Decision (P x)} (l : list A) :
  (∀ x, x ∈ l → ¬ P x) → filter P l = [].
Proof.
  intros Hl. induction l as [|x l IH]; [reflexivity|].
  rewrite filter_cons_False by (apply Hl; left).
  apply IH. intros y Hy. apply Hl. right. exact Hy.
Qed.

Section Recommendation.

Variable W : World.

(** Gathering over tags that are all keys of the index changes nothing
    in the state. *)
Lemma gather_valid (tags : list string) (matched : list Product) st :
  Forall (λ tag, is_Some (tag_index (self st) !! tag)) tags →
  gather_products tags matched st
  = (Ret (matched ++ (tags ≫= λ tag, default [] (tag_index (self st) !! tag))),
     st).
Proof.
  intros Hvalid. induction Hvalid as [|tag tags [v Hv] _ IH] in matched |- *.
  - cbn. rewrite app_nil_r. reflexivity.
  - cbn [gather_products]. unfold bind at 1. unfold get.
    rewrite (getitem_present _ _ _ Hv).
    unfold bind at 1. unfold modify. rewrite set_tag_index_same.
    rewrite IH, bind_cons, Hv, app_assoc. reflexivity.
Qed.

Lemma recommendation_run query st :
  handle_product_recommendation W query st =
    let index := tag_index (self st) in
    let tag_csv := join ", " (DefaultDict.sorted_keys index) in
    match call_gpt W (tag_selection_prompt tag_csv query) 0 st with
    | (Raise e, st1) => (Raise e, st1)
    | (Ret tag_response, st1) =>
        let valid_tags :=
          filter (λ tag, DefaultDict.contains tag index)
                 (strip <$> split "," tag_response) in
        match valid_tags ≫= λ tag, default [] (index !! tag) with
        | [] => (Ret fallback, st1)
        | p :: ps =>
            call_gpt W
              (product_selection_prompt query
                 (join nl (product_line <$> p :: ps))) 0 st1
        end
    end.
Proof.
  unfold handle_product_recommendation. unfold bind at 1. unfold get.
  cbv zeta. unfold bind at 1.
  pose proof (call_gpt_self W
    (tag_selection_prompt
       (join ", " (DefaultDict.sorted_keys (tag_index (self st)))) query)
    0 st) as Hself.
  destruct (call_gpt W _ 0 st) as [[tag_response|e] st1]; [|reflexivity].
  cbn [snd] in Hself. unfold bind at 1. rewrite Hself.
  unfold bind at 1. rewrite gather_valid.
  - rewrite Hself. cbn [app].
    destruct (_ ≫= _) as [|p ps]; [reflexivity|].
    unfold bind, ret. destruct (call_gpt W _ 0 st1) as [[r|e] st2]; reflexivity.
  - rewrite Hself. apply Forall_forall. intros tag Htag.
    apply list_elem_of_filter in Htag as [Htag _].
    apply contains_spec. exact Htag.
Qed.

(** The handler never touches the agent: neither the data nor the
    history. *)
Lemma recommendation_self query st :
  self (handle_product_recommendation W query st).2 = self st.
Proof.
  rewrite recommendation_run. cbv zeta.
  pose proof (call_gpt_self W
    (tag_selection_prompt
       (join ", " (DefaultDict.sorted_keys (tag_index (self st)))) query)
    0 st) as Hself.
  destruct (call_gpt W _ 0 st) as [[tag_response|e] st1]; [|exact Hself].
  cbn [snd] in Hself. destruct (_ ≫= _) as [|p ps]; [exact Hself|].
  rewrite call_gpt_self. exact Hself.
Qed.

End Recommendation.

(** C5. When no token of the tag-selection response, split on commas and
    trimmed, is a key of the tag index, the recommendation handler returns
    the fallback string and stops in the state reached by the
    tag-selection call: the only request it sent is that one. *)
Theorem recommendation_fallback (W : World) (query : string) (st : State)
    (tag_response : string) :
  let index := tag_index (self st) in
  let tag_csv := join ", " (DefaultDict.sorted_keys index) in
  let tag_selection := call_gpt W (tag_selection_prompt tag_csv query) 0 st in
  tag_selection.1 = Ret tag_response →
  (∀ token, token ∈ strip <$> split "," tag_response → index !! token = None) →
  handle_product_recommendation W query st
  = (Ret "Product Status: Couldn't find anything that matches. Ask the user to describe what they're looking for in a bit more detail.",
     tag_selection.2)
  ∧ sent (handle_product_recommendation W query st).2
    = sent st ++ [single_turn (tag_selection_prompt tag_csv query) 0].
Proof.
  intros index tag_csv tag_selection Hresponse Hnone.
  assert (Hrun : handle_product_recommendation W query st
                 = (Ret fallback, tag_selection.2)).
  { rewrite recommendation_run. cbv zeta. fold index. fold tag_csv.
    fold tag_selection.
    destruct tag_selection as [outcome st1] eqn:Hcall. cbn [fst snd] in *.
    subst outcome. rewrite filter_none; [reflexivity|].
    intros token Htoken Hcontains. apply contains_spec in Hcontains.
    rewrite (Hnone token Htoken) in Hcontains. destruct Hcontains; discriminate. }
  split; [exact Hrun|].
  rewrite Hrun. cbn [snd]. apply call_gpt_sent.
Qed.

Lemma recommendation_fallback_witness :
  handle_product_recommendation
    (Demo.scripted [Demo.says "climbing, Camping"] 9 0) "rope?" (Demo.start [])
  = (Ret fallback,
     (call_gpt (Demo.scripted [Demo.says "climbing, Camping"] 9 0)
        (tag_selection_prompt "camping, cooking, shelter" "rope?") 0
        (Demo.start [])).2).
Proof.
  refine (proj1 (recommendation_fallback
                   (Demo.scripted [Demo.says "climbing, Camping"] 9 0)
                   "rope?" (Demo.start []) "climbing, Camping" _ _)).
  - vm_compute. reflexivity.
  - intros token Htoken.
    assert (token = "climbing" ∨ token = "Camping") as [-> | ->].
    { vm_compute in Htoken.
      apply elem_of_cons in Htoken as [->|Htoken]; [left; reflexivity|].
      apply list_elem_of_singleton in Htoken as ->. right. reflexivity. }
    + vm_compute. reflexivity.
    + vm_compute. reflexivity.
Defined.

(** A lookup at a key that is absent would add the key: the index stays
    as it is only because the handler looks up keys it has tested. *)
Example getitem_missing_adds_key :
  dom (DefaultDict.getitem "climbing" (tag_index Demo.agent0)).2
  = {["climbing"]} ∪ dom (tag_index Demo.agent0).
Proof.
  rewrite getitem_missing by (vm_compute; reflexivity).
  cbn [snd]. apply dom_insert_L.
Qed.

(** ** Dispatch *)

Section Dispatch.

Variable W : World.

Lemma handle_order_info_self (query : string) st :
  self (handle_order_info query st).2 = self st.
Proof.
  unfold handle_order_info, bind, input, get, ret.
  destruct (stdin st) as [|email [|order_number rest]]; reflexivity.
Qed.

Lemma handle_early_riser_promo_self st :
  self (handle_early_riser_promo W st).2 = self st.
Proof.
  unfold handle_early_riser_promo, bind, now_hour, uuid4, ret.
  destruct (_ && _); reflexivity.
Qed.

Lemma fragment_self fires (handler : M string) st :
  (∀ st, self (handler st).2 = self st) →
  self (fragment fires handler st).2 = self st.
Proof.
  intros Hh. unfold fragment, bind, ret. destruct fires; [|reflexivity].
  specialize (Hh st). destruct (handler st) as [[r|e] st']; exact Hh.
Qed.

(** The three tests in sequence: the responses are the fragments of the
    order handler, of the recommendation handler and of the promotion
    handler, in this order. *)
Lemma run_handlers_fragments user_input intents st :
  run_handlers W user_input intents st =
    (a <- fragment (in_list "order" intents) (handle_order_info user_input);;
     b <- fragment (in_list "recommendation" intents)
            (handle_product_recommendation W user_input);;
     c <- fragment (in_list "early_riser" intents)
            (handle_early_riser_promo W);;
     ret (a ++ b ++ c)) st.
Proof.
  unfold run_handlers, fragment, bind, ret.
  destruct (in_list "order" intents);
    [destruct (handle_order_info user_input st) as [[ro|e] sa]|];
    try reflexivity;
    (destruct (in_list "recommendation" intents);
     [match goal with
      | |- context [handle_product_recommendation W user_input ?s] =>
          destruct (handle_product_recommendation W user_input s)
            as [[rr|e] sb]
      end|];
     try reflexivity;
     (destruct (in_list "early_riser" intents);
      [match goal with
       | |- context [handle_early_riser_promo W ?s] =>
           destruct (handle_early_riser_promo W s) as [[rp|e] sc]
       end|];
      reflexivity)).
Qed.

Lemma run_handlers_self user_input intents st :
  self (run_handlers W user_input intents st).2 = self st.
Proof.
  rewrite run_handlers_fragments. unfold bind.
  pose proof (fragment_self (in_list "order" intents)
                (handle_order_info user_input) st
                (handle_order_info_self user_input)) as Ha.
  destruct (fragment _ (handle_order_info user_input) st) as [[a|e] sa];
    [|exact Ha].
  pose proof (fragment_self (in_list "recommendation" intents)
                (handle_product_recommendation W user_input) sa
                (recommendation_self W user_input)) as Hb.
  destruct (fragment _ (handle_product_recommendation W user_input) sa)
    as [[b|e] sb]; cbn [snd] in *; [|congruence].
  pose proof (fragment_self (in_list "early_riser" intents)
                (handle_early_riser_promo W) sb
                handle_early_riser_promo_self) as Hc.
  destruct (fragment _ (handle_early_riser_promo W) sb) as [[c|e] sc];
    unfold ret; cbn [snd] in *; congruence.
Qed.

(** Only membership of the three labels matters, not the order of the
    tokens nor their repetition. *)
Lemma run_handlers_members user_input intents intents' st :
  (∀ x, x ∈ intents' ↔ x ∈ intents) →
  run_handlers W user_input intents' st = run_handlers W user_input intents st.
Proof.
  intros Hsame.
  assert (Hin : ∀ x, in_list x intents' = in_list x intents).
  { intros x. unfold in_list. apply bool_decide_ext, Hsame. }
  unfold run_handlers. rewrite !Hin. reflexivity.
Qed.

Lemma run_handlers_none user_input intents st :
  "order" ∉ intents → "recommendation" ∉ intents → "early_riser" ∉ intents →
  run_handlers W user_input intents st = (Ret [], st).
Proof.
  intros Ho Hr He. unfold run_handlers, in_list.
  rewrite !bool_decide_eq_false_2 by assumption. reflexivity.
Qed.

Lemma chat_same_data msg st :
  same_data st (call_gpt_and_update_history W msg st).2.
Proof.
  rewrite chat_run. cbv zeta.
  destruct (stripped_content _); repeat split; reflexivity.
Qed.

Lemma handle_run user_input st :
  handle W user_input st =
    match call_gpt W (intent_prompt user_input) 0 st with
    | (Raise e, st1) => (Raise e, st1)
    | (Ret intent_response, st1) =>
        let intents := parse_intents intent_response in
        match run_handlers W user_input intents st1 with
        | (Raise e, st2) => (Raise e, st2)
        | (Ret responses, st2) =>
            if bool_decide (responses = []) || in_list "general" intents
            then call_gpt_and_update_history W user_input st2
            else call_gpt_and_update_history W
                   (compiled_prompt user_input (join nl responses)) st2
        end
    end.
Proof.
  unfold handle. unfold bind at 1.
  destruct (call_gpt W _ 0 st) as [[intent_response|e] st1]; [|reflexivity].
  cbv zeta. unfold bind.
  destruct (run_handlers W _ _ st1) as [[responses|e] st2]; [|reflexivity].
  destruct (_ || _); reflexivity.
Qed.

End Dispatch.

(** C1. Whenever the handlers produced no fragment, or [general] is among
    the parsed intents, [handle] continues as the persona chat on the raw
    user utterance: the fragments are dropped, and the request sent ends
    with the utterance itself as the user message.  This holds also when
    a handler, such as the order handler, has run and returned a
    fragment. *)
Theorem general_sends_raw_utterance (W : World) (user_input : string)
    (st : State) (intent_response : string) (st1 : State)
    (responses : list string) (st2 : State) :
  call_gpt W (intent_prompt user_input) 0 st = (Ret intent_response, st1) →
  run_handlers W user_input (parse_intents intent_response) st1
  = (Ret responses, st2) →
  responses = [] ∨ "general" ∈ parse_intents intent_response →
  handle W user_input st = call_gpt_and_update_history W user_input st2
  ∧ sent (handle W user_input st).2
    = sent st2
        ++ [chat_request
              ([{| role := system; content := system_prompt |}]
                 ++ history (self st2)
                 ++ [{| role := user; content := user_input |}])].
Proof.
  intros Hclassify Hhandlers Hrule.
  assert (Hrun : handle W user_input st
                 = call_gpt_and_update_history W user_input st2).
  { rewrite handle_run, Hclassify. cbv zeta. rewrite Hhandlers.
    destruct Hrule as [-> | Hgeneral].
    - reflexivity.
    - unfold in_list. rewrite (bool_decide_eq_true_2 _ Hgeneral).
      rewrite orb_true_r. reflexivity. }
  split; [exact Hrun|]. rewrite Hrun. apply chat_sent.
Qed.

Lemma general_sends_raw_utterance_witness :
  handle ScenarioC.world "where is my order" ScenarioC.st0
  = call_gpt_and_update_history ScenarioC.world "where is my order" ScenarioC.st2.
Proof.
  refine (proj1 (general_sends_raw_utterance ScenarioC.world "where is my order"
                   ScenarioC.st0 "order, general" ScenarioC.st1
                   ["Order #W001 is delivered. Tracking link: https://tools.usps.com/go/TrackConfirmAction?tLabels=TRK123456789"]
                   ScenarioC.st2 _ _ _)).
  - vm_compute. reflexivity.
  - vm_compute. reflexivity.
  - right. vm_compute. right. left.
Defined.

(** Scenario C end to end: the order handler has run, yet the history
    records the raw utterance. *)
Example scenario_order_and_general :
  let run := handle ScenarioC.world "where is my order" ScenarioC.st0 in
  run.1 = Ret "On its way!"
  ∧ history (self run.2)
    = [user_message "where is my order"; assistant_message "On its way!"]
  ∧ stdin run.2 = [].
Proof. vm_compute. repeat split; reflexivity. Qed.

(** C6. When at least one fragment exists and [general] is not among the
    parsed intents, the message passed to the persona chat is exactly
    the user question followed by the fragments joined by newlines.  The
    fragments come in the fixed order of the handlers (order,
    recommendation, early riser), whatever the order of the tokens in the
    classifier's response. *)
Theorem fragments_compiled_in_priority_order (W : World) (user_input : string)
    (st : State) (intent_response : string) (st1 : State)
    (responses : list string) (st2 : State) :
  let intents := parse_intents intent_response in
  call_gpt W (intent_prompt user_input) 0 st = (Ret intent_response, st1) →
  run_handlers W user_input intents st1 = (Ret responses, st2) →
  responses ≠ [] → "general" ∉ intents →
  handle W user_input st
  = call_gpt_and_update_history W
      ("User question: " +:+ user_input
         +:+ ". Use the following information to best answer the user's question: "
         +:+ join nl responses) st2
  ∧ (∃ a b c sa sb,
       fragment (in_list "order" intents) (handle_order_info user_input) st1
       = (Ret a, sa)
       ∧ fragment (in_list "recommendation" intents)
           (handle_product_recommendation W user_input) sa
         = (Ret b, sb)
       ∧ fragment (in_list "early_riser" intents)
           (handle_early_riser_promo W) sb
         = (Ret c, st2)
       ∧ responses = a ++ b ++ c)
  ∧ (∀ intents', (∀ x, x ∈ intents' ↔ x ∈ intents) →
       run_handlers W user_input intents' st1 = (Ret responses, st2)).
Proof.
  intros intents Hclassify Hhandlers Hnonempty Hgeneral.
  split; [|split].
  - rewrite handle_run, Hclassify. cbv zeta. fold intents. rewrite Hhandlers.
    unfold in_list.
    rewrite (bool_decide_eq_false_2 _ Hnonempty),
      (bool_decide_eq_false_2 _ Hgeneral).
    reflexivity.
  - rewrite run_handlers_fragments in Hhandlers. unfold bind in Hhandlers.
    destruct (fragment _ (handle_order_info user_input) st1)
      as [[a|e] sa] eqn:Ha; [|discriminate].
    destruct (fragment _ (handle_product_recommendation W user_input) sa)
      as [[b|e] sb] eqn:Hb; [|discriminate].
    destruct (fragment _ (handle_early_riser_promo W) sb)
      as [[c|e] sc] eqn:Hc; [|discriminate].
    unfold ret in Hhandlers. injection Hhandlers as <- <-.
    exists a, b, c, sa, sb.
    split; [first [exact Ha | reflexivity]|].
    split; [first [exact Hb | reflexivity]|].
    split; [first [exact Hc | reflexivity]|reflexivity].
  - intros intents' Hsame. rewrite <- Hhandlers.
    apply run_handlers_members. exact Hsame.
Qed.

Lemma fragments_compiled_in_priority_order_witness :
  handle ScenarioB.world "status and deals?" ScenarioB.st0
  = call_gpt_and_update_history ScenarioB.world
      ("User question: status and deals?. Use the following information to best answer the user's question: "
         +:+ join nl ScenarioB.responses)
      ScenarioB.st2.
Proof.
  refine (proj1 (fragments_compiled_in_priority_order ScenarioB.world
                   "status and deals?" ScenarioB.st0 "early_riser, order"
                   ScenarioB.st1 ScenarioB.responses ScenarioB.st2 _ _ _ _)).
  - vm_compute. reflexivity.
  - vm_compute. reflexivity.
  - discriminate.
  - vm_compute. intros H.
    apply elem_of_cons in H as [H|H]; [discriminate|].
    apply list_elem_of_singleton in H. discriminate.
Defined.

Example scenario_priority_order :
  history (self (handle ScenarioB.world "status and deals?" ScenarioB.st0).2)
  = [user_message
       ("User question: status and deals?. Use the following information to best answer the user's question: "
          +:+ "Order #W001 is delivered. Tracking link: https://tools.usps.com/go/TrackConfirmAction?tLabels=TRK123456789"
          +:+ nl +:+ promo_closed);
     assistant_message "Enjoy!"].
Proof. vm_compute. reflexivity. Qed.

(** C9. Processing a turn leaves the order list, the product list and the
    tag index as they were; of the agent's data only the history may
    change.  In particular the recommendation handler, which tests
    membership and looks up the tag index, leaves the index unchanged. *)
Theorem handle_preserves_data (W : World) (user_input : string) (st : State) :
  let st' := (handle W user_input st).2 in
  orders (self st') = orders (self st)
  ∧ products (self st') = products (self st)
  ∧ tag_index (self st') = tag_index (self st)
  ∧ (∀ query s,
       tag_index (self (handle_product_recommendation W query s).2)
       = tag_index (self s)).
Proof.
  intros st'. subst st'.
  assert (Hdata : same_data st (handle W user_input st).2).
  { rewrite handle_run.
    pose proof (call_gpt_self W (intent_prompt user_input) 0 st) as H1.
    destruct (call_gpt W _ 0 st) as [[intent_response|e] st1]; cbn [snd] in H1;
      [|unfold same_data; cbn [snd]; rewrite H1; repeat split; reflexivity].
    cbv zeta.
    pose proof (run_handlers_self W user_input
                  (parse_intents intent_response) st1) as H2.
    destruct (run_handlers W _ _ st1) as [[responses|e] st2]; cbn [snd] in H2;
      [|unfold same_data; cbn [snd]; rewrite H2, H1; repeat split; reflexivity].
    assert (Hchat : ∀ msg,
               same_data st (call_gpt_and_update_history W msg st2).2).
    { intros msg. destruct (chat_same_data W msg st2) as (Ho & Hp & Ht).
      unfold same_data. rewrite Ho, Hp, Ht, H2, H1. repeat split; reflexivity. }
    destruct (_ || _); apply Hchat. }
  destruct Hdata as (Ho & Hp & Ht).
  split; [exact Ho|]. split; [exact Hp|]. split; [exact Ht|].
  intros query s. rewrite recommendation_self. reflexivity.
Qed.

(** ** Case-sensitive intent labels *)

Lemma elem_of_intent_labels l :
  l ∈ intent_labels
  ↔ l = "order" ∨ l = "recommendation" ∨ l = "early_riser" ∨ l = "general".
Proof.
  unfold intent_labels.
  rewrite !elem_of_cons, elem_of_nil. tauto.
Qed.

Lemma lower_ascii_label l : l ∈ intent_labels → lower_ascii l = l.
Proof.
  intros Hl. apply elem_of_intent_labels in Hl as [-> | [-> | [-> | ->]]];
    reflexivity.
Qed.

(** A case variant of a label is none of the labels. *)
Lemma case_variant_not_label token label :
  label ∈ intent_labels → case_variant token label → token ∉ intent_labels.
Proof.
  intros Hlabel [Hne Hlower] Htoken.
  apply Hne. rewrite <- Hlower. symmetry. apply lower_ascii_label, Htoken.
Qed.

(** C10. Intent tokens are compared exactly, with their case.  When every
    token of the classifier's response differs from a label only in case
    (as [Order] or [GENERAL]), no handler runs and [general] is not found
    among the intents: the turn reaches the persona chat with the raw
    utterance because the fragment list is empty. *)
Theorem case_variants_take_empty_rule (W : World) (user_input : string)
    (st : State) (intent_response : string) (st1 : State) :
  let intents := parse_intents intent_response in
  call_gpt W (intent_prompt user_input) 0 st = (Ret intent_response, st1) →
  (∀ token, token ∈ intents →
     ∃ label, label ∈ intent_labels ∧ case_variant token label) →
  run_handlers W user_input intents st1 = (Ret [], st1)
  ∧ in_list "order" intents = false
  ∧ in_list "recommendation" intents = false
  ∧ in_list "early_riser" intents = false
  ∧ in_list "general" intents = false
  ∧ handle W user_input st = call_gpt_and_update_history W user_input st1.
Proof.
  intros intents Hclassify Hvariants.
  assert (Hout : ∀ l, l ∈ intent_labels → l ∉ intents).
  { intros l Hl Hin. destruct (Hvariants l Hin) as (label & Hlabel & Hcv).
    exact (case_variant_not_label l label Hlabel Hcv Hl). }
  assert (Ho : "order" ∉ intents)
    by (apply Hout, elem_of_intent_labels; tauto).
  assert (Hr : "recommendation" ∉ intents)
    by (apply Hout, elem_of_intent_labels; tauto).
  assert (He : "early_riser" ∉ intents)
    by (apply Hout, elem_of_intent_labels; tauto).
  assert (Hg : "general" ∉ intents)
    by (apply Hout, elem_of_intent_labels; tauto).
  assert (Hnone : run_handlers W user_input intents st1 = (Ret [], st1))
    by (apply run_handlers_none; assumption).
  split; [exact Hnone|]. unfold in_list.
  rewrite !bool_decide_eq_false_2 by assumption.
  repeat (split; [reflexivity|]).
  rewrite handle_run, Hclassify. cbv zeta. fold intents. rewrite Hnone.
  reflexivity.
Qed.

Lemma case_variants_take_empty_rule_witness :
  let W := Demo.scripted [Demo.says "Order, GENERAL"; Demo.says "Hi!"] 9 0 in
  let st1 := (call_gpt W (intent_prompt "Where is my order?") 0 (Demo.start [])).2 in
  run_handlers W "Where is my order?" ["Order"; "GENERAL"] st1 = (Ret [], st1)
  ∧ in_list "general" ["Order"; "GENERAL"] = false
  ∧ handle W "Where is my order?" (Demo.start [])
    = call_gpt_and_update_history W "Where is my order?" st1.
Proof.
  intros W st1.
  destruct (case_variants_take_empty_rule W "Where is my order?"
              (Demo.start []) "Order, GENERAL" st1) as (Hnone & _ & _ & _ & Hg & Hrun).
  - vm_compute. reflexivity.
  - intros token Htoken.
    assert (token = "Order" ∨ token = "GENERAL") as [-> | ->].
    { vm_compute in Htoken.
      apply elem_of_cons in Htoken as [->|Htoken]; [left; reflexivity|].
      apply list_elem_of_singleton in Htoken as ->. right. reflexivity. }
    + exists "order". split; [apply elem_of_intent_labels; tauto|].
      split; [discriminate | reflexivity].
    + exists "general". split; [apply elem_of_intent_labels; tauto|].
      split; [discriminate | reflexivity].
  - split; [exact Hnone|]. split; [exact Hg | exact Hrun].
Defined.

Example parse_intents_keeps_case :
  parse_intents " Order ,, GENERAL " = ["Order"; "GENERAL"].
Proof. vm_compute. reflexivity. Qed.

(** * Further properties of the agent *)

(** ** Footprint of the two gateway paths *)

(** X1. [call_gpt] sends exactly one request, made of the prompt as its
    only message, a user message, at the temperature it was given.  It
    leaves the agent (history included) as it was, reads nothing from
    the console and reads neither the clock nor the random source. *)
Theorem call_gpt_footprint (W : World) (prompt : string) (temperature : Q)
    (st : State) :
  let st' := (call_gpt W prompt temperature st).2 in
  sent st'
  = sent st ++ [{| req_model := "gpt-4o";
                   req_messages := [{| role := user; content := prompt |}];
                   req_temperature := temperature |}]
  ∧ self st' = self st
  ∧ stdin st' = stdin st
  ∧ clock_reads st' = clock_reads st
  ∧ random_draws st' = random_draws st.
Proof.
  intros st'. subst st'. rewrite call_gpt_run. cbv zeta.
  destruct (stripped_content _); repeat split; reflexivity.
Qed.

(** X2. A response without a usable first text, either with no choice at
    all or with a null content in its first choice, is handled like a
    provider failure: [call_gpt] returns the apology and logs one error
    line. *)
Theorem call_gpt_malformed_response (W : World) (prompt : string)
    (temperature : Q) (st : State) (choices : list (option string)) :
  completions_create W (sent st) (single_turn prompt temperature)
  = Response choices →
  choices = [] ∨ (∃ others, choices = None :: others) →
  (call_gpt W prompt temperature st).1 = Ret gpt_apology
  ∧ ∃ e, stdout (call_gpt W prompt temperature st).2
         = stdout st ++ ["[GPT error] " +:+ e +:+ nl].
Proof.
  intros Hresponse Hshape. rewrite call_gpt_run. cbv zeta. rewrite Hresponse.
  destruct Hshape as [-> | [others ->]]; cbn; eauto.
Qed.

Lemma call_gpt_malformed_response_witness :
  (call_gpt (Demo.scripted [Response [None; Some "late"]] 9 0) "hello" 0
     (Demo.start [])).1
  = Ret gpt_apology.
Proof.
  refine (proj1 (call_gpt_malformed_response
                   (Demo.scripted [Response [None; Some "late"]] 9 0)
                   "hello" 0 (Demo.start []) [None; Some "late"] _ _)).
  - reflexivity.
  - right. exists [Some "late"]. reflexivity.
Defined.

(** X3. Whatever the provider does, the persona chat sends exactly one
    request at temperature 0.7: the system prompt first, then the whole
    history in order, then the new message as a user message.  It reads
    nothing from the console and leaves the load-time data alone. *)
Theorem chat_request_shape (W : World) (new_user_message : string) (st : State) :
  let st' := (call_gpt_and_update_history W new_user_message st).2 in
  sent st'
  = sent st
      ++ [{| req_model := "gpt-4o";
             req_messages :=
               {| role := system; content := system_prompt |}
                 :: history (self st)
                 ++ [{| role := user; content := new_user_message |}];
             req_temperature := 0.7 |}]
  ∧ stdin st' = stdin st
  ∧ orders (self st') = orders (self st)
  ∧ products (self st') = products (self st)
  ∧ tag_index (self st') = tag_index (self st).
Proof.
  intros st'. subst st'. rewrite chat_run. cbv zeta.
  destruct (stripped_content _); repeat split; reflexivity.
Qed.

(** ** The console protocol of the order handler *)

(** X4. With two lines on the console the order handler writes its two
    prompts in order, reads exactly these two lines, sends no request
    and leaves the agent as it was; its reply does not depend on the
    user's utterance. *)
Theorem order_handler_console (query email order_number : string)
    (rest : list string) (st : State) :
  stdin st = email :: order_number :: rest →
  let st' := (handle_order_info query st).2 in
  stdin st' = rest
  ∧ stdout st'
    = stdout st ++ ["Please provide your email: ";
                    "Please provide your order number: "]
  ∧ sent st' = sent st
  ∧ self st' = self st
  ∧ ∀ query', handle_order_info query' st = handle_order_info query st.
Proof.
  intros Hin st'. subst st'.
  rewrite (handle_order_info_run query email order_number rest st Hin).
  cbn [snd set_stdin write stdin stdout sent self].
  rewrite <- app_assoc.
  repeat (split; [reflexivity|]).
  intros query'.
  rewrite (handle_order_info_run query' email order_number rest st Hin).
  reflexivity.
Qed.

Lemma order_handler_console_witness :
  stdin (handle_order_info "where is my order"
           (Demo.start ["ann@example.com"; "#W001"; "thanks"])).2
  = ["thanks"].
Proof.
  refine (proj1 (order_handler_console "where is my order" "ann@example.com"
                   "#W001" ["thanks"]
                   (Demo.start ["ann@example.com"; "#W001"; "thanks"]) _)).
  reflexivity.
Defined.

(** X5. With fewer than two lines left on the console the order handler
    raises [EOFError]: the console is then exhausted, no request was sent
    and the agent is as it was. *)
Theorem order_handler_eof (query : string) (st : State) :
  (length (stdin st) < 2)%nat →
  let run := handle_order_info query st in
  run.1 = Raise EOFError
  ∧ stdin run.2 = []
  ∧ sent run.2 = sent st
  ∧ self run.2 = self st.
Proof.
  intros Hlen run. subst run.
  unfold handle_order_info, bind, input, get, ret.
  destruct (stdin st) as [|email [|order_number rest]] eqn:Hin; cbn in *.
  - rewrite Hin. repeat split; reflexivity.
  - repeat split; reflexivity.
  - lia.
Qed.

Lemma order_handler_eof_witness :
  (handle_order_info "where is my order" (Demo.start ["ann@example.com"])).1
  = Raise EOFError.
Proof.
  refine (proj1 (order_handler_eof "where is my order"
                   (Demo.start ["ann@example.com"]) _)).
  cbn. lia.
Defined.

(** ** Footprint and code of the early-riser handler *)

(** X6. The early-riser handler never raises; it reads the clock exactly
    once and draws a random identifier exactly when the hour is in the
    window.  It sends no request and touches neither the console nor the
    agent. *)
Theorem early_riser_footprint (W : World) (st : State) :
  let h := pacific_hour W (clock_reads st) in
  let run := handle_early_riser_promo W st in
  (∃ reply, run.1 = Ret reply)
  ∧ clock_reads run.2 = S (clock_reads st)
  ∧ random_draws run.2
    = (if (8 <=? h) && (h <? 10) then S (random_draws st) else random_draws st)
  ∧ sent run.2 = sent st
  ∧ stdin run.2 = stdin st
  ∧ stdout run.2 = stdout st
  ∧ self run.2 = self st.
Proof.
  intros h run. subst run.
  unfold handle_early_riser_promo, bind, now_hour, uuid4, ret. fold h.
  destruct ((8 <=? h) && (h <? 10)); cbn; repeat split; eauto.
Qed.

Lemma testbit_small (a n m : Z) :
  0 ≤ a < 2 ^ n → 0 ≤ n ≤ m → Z.testbit a m = false.
Proof.
  intros [Hlo Hhi] Hnm. destruct (decide (a = 0)) as [->|Hne].
  - apply Z.bits_0.
  - apply Z.bits_above_log2; [lia|].
    assert (Z.log2 a < n) by (apply Z.log2_lt_pow2; lia). lia.
Qed.

(** The version and variant bits lie below bit 112: the two leading bytes
    of an identifier are the two leading random bytes. *)
Lemma uuid4_leading_bits (r m : Z) :
  112 ≤ m < 128 → Z.testbit (UUID.uuid4 r) m = Z.testbit r m.
Proof.
  intros Hm. unfold UUID.uuid4.
  rewrite Z.lor_spec, Z.land_spec, Z.lor_spec, Z.land_spec, Z.land_spec.
  rewrite !Z.lnot_spec, !Z.shiftl_spec by lia.
  rewrite Z.ones_spec_low by lia.
  rewrite (testbit_small 0xc000 16) by lia.
  rewrite (testbit_small 0x8000 16) by lia.
  rewrite (testbit_small 0xf000 16) by lia.
  rewrite (testbit_small 4 3) by lia.
  cbn. rewrite !andb_true_r, !orb_false_r. reflexivity.
Qed.

Lemma hex_agree (n : nat) (x y : Z) :
  (∀ m, 0 ≤ m < 4 * Z.of_nat n → Z.testbit x m = Z.testbit y m) →
  UUID.hex n x = UUID.hex n y.
Proof.
  induction n as [|n IH]; intros Hbits; [reflexivity|].
  cbn [UUID.hex]. f_equal.
  - f_equal. apply Z.bits_inj'. intros k Hk.
    rewrite !Z.land_spec, !Z.shiftr_spec by lia.
    destruct (decide (k < 4)) as [Hk4|Hk4].
    + rewrite Hbits by lia. reflexivity.
    + rewrite (testbit_small 15 4 k) by lia. rewrite !andb_false_r. reflexivity.
  - apply IH. intros m Hm. apply Hbits. lia.
Qed.

(** X7. In the window the promotion code is the prefix SIERRA- followed
    by the four leading hexadecimal digits of the sixteen random bytes, in
    upper case: the code is decided by the first two random bytes
    alone. *)
Theorem early_riser_code_entropy (W : World) (st : State) :
  let h := pacific_hour W (clock_reads st) in
  let r := urandom16 W (random_draws st) in
  8 ≤ h < 10 →
  (handle_early_riser_promo W st).1
  = Ret ("This user qualifies for the Early Riser promotion! They may use discount code "
           +:+ ("SIERRA-" +:+ upper (UUID.hex 4 (Z.shiftr r 112)))
           +:+ " for 10% off.").
Proof.
  intros h r [Hlo Hhi].
  unfold handle_early_riser_promo, bind, now_hour. fold h.
  rewrite (proj2 (Z.leb_le 8 h) Hlo), (proj2 (Z.ltb_lt h 10) Hhi).
  cbn [andb]. unfold uuid4, ret. cbn [fst tick_clock random_draws].
  fold r. rewrite uuid_str_take.
  rewrite (hex_agree 4 (Z.shiftr (UUID.uuid4 r) 112) (Z.shiftr r 112)).
  - reflexivity.
  - intros m Hm. rewrite !Z.shiftr_spec by lia.
    apply uuid4_leading_bits. lia.
Qed.

Lemma early_riser_code_entropy_witness :
  (handle_early_riser_promo (Demo.scripted [] 8 (0xbeef * 2 ^ 112 + 12345))
     (Demo.start [])).1
  = Ret "This user qualifies for the Early Riser promotion! They may use discount code SIERRA-BEEF for 10% off.".
Proof.
  refine (early_riser_code_entropy
            (Demo.scripted [] 8 (0xbeef * 2 ^ 112 + 12345)) (Demo.start []) _).
  cbn. lia.
Defined.

(** ** The tag list and the size of the index *)

(** X8. The tag list offered to the model is the key set of the index:
    every key once, no other string, in increasing code-point order. *)
Theorem sorted_keys_exact (index : gmap string (list Product)) :
  let tag_list := DefaultDict.sorted_keys index in
  Sorted String.le tag_list
  ∧ NoDup tag_list
  ∧ ∀ tag, tag ∈ tag_list ↔ is_Some (index !! tag).
Proof.
  intros tag_list. subst tag_list. unfold DefaultDict.sorted_keys.
  split; [apply Sorted_merge_sort; apply _|]. split.
  - rewrite merge_sort_Permutation. apply NoDup_fst_map_to_list.
  - intros tag. rewrite merge_sort_Permutation, list_elem_of_fmap. split.
    + intros ([k v] & -> & Hkv). apply elem_of_map_to_list in Hkv. eauto.
    + intros [v Hv]. exists (tag, v). split; [reflexivity|].
      apply elem_of_map_to_list. exact Hv.
Qed.

Lemma total_entries_insert (index : gmap string (list Product)) k entry :
  total_entries (<[k := entry]> index)
  = (length entry + total_entries (delete k index))%nat.
Proof.
  unfold total_entries. rewrite <- insert_delete_eq.
  apply (map_fold_insert_L (λ (_ : string) (e : list Product) (n : nat),
                              (length e + n)%nat));
    [intros; lia|apply lookup_delete_eq].
Qed.

Lemma total_entries_lookup (index : gmap string (list Product)) k :
  total_entries index
  = (length (default [] (index !! k)) + total_entries (delete k index))%nat.
Proof.
  destruct (index !! k) as [entry|] eqn:Hk; cbn.
  - unfold total_entries.
    apply (map_fold_delete_L (λ (_ : string) (e : list Product) (n : nat),
                                (length e + n)%nat));
      [intros; lia|exact Hk].
  - rewrite delete_id by exact Hk. reflexivity.
Qed.

(** Appending to an entry adds one to the size, whether the key was
    present or not. *)
Lemma total_entries_append (index : gmap string (list Product)) k p :
  total_entries (DefaultDict.append k p index) = S (total_entries index).
Proof.
  rewrite (total_entries_lookup index k).
  unfold DefaultDict.append, DefaultDict.getitem.
  destruct (index !! k) as [entry|] eqn:Hk; cbn [default].
  - rewrite total_entries_insert, length_app. cbn. lia.
  - rewrite insert_insert_eq, total_entries_insert. reflexivity.
Qed.

(** X9. Building the index loses and invents nothing: the number of
    product entries it holds, over all keys, is the number of tags the
    catalog carries, repeated tags and tags that share a lowercase form
    included. *)
Theorem tag_index_conserves_tags (str_lower : string -> string)
    (catalog : list Product) :
  total_entries (build_tag_index str_lower catalog) = total_tags catalog.
Proof.
  unfold build_tag_index, total_tags.
  assert (Hinner : ∀ p tags (index : gmap string (list Product)),
             total_entries
               (foldl (λ index tag,
                         let normalized_tag := str_lower tag in
                         DefaultDict.append normalized_tag p index) index tags)
             = (length tags + total_entries index)%nat).
  { intros p tags. induction tags as [|tag tags IH]; intros index;
      [reflexivity|].
    cbn [foldl length]. rewrite IH. cbv zeta. rewrite total_entries_append. lia. }
  assert (Houter : ∀ (index : gmap string (list Product)),
             total_entries
               (foldl (λ index product,
                         foldl (λ index tag,
                                  let normalized_tag := str_lower tag in
                                  DefaultDict.append normalized_tag product index)
                               index (Tags product)) index catalog)
             = (sum_list (length ∘ Tags <$> catalog) + total_entries index)%nat).
  { induction catalog as [|p catalog IH]; intros index; [reflexivity|].
    cbn [foldl]. rewrite IH, Hinner. cbn. lia. }
  rewrite Houter. unfold total_entries at 1. rewrite map_fold_empty. lia.
Qed.

Example tag_index_conserves_demo :
  total_entries (tag_index Demo.agent0) = 4%nat.
Proof. vm_compute. reflexivity. Qed.

(** ** The recommendation handler beyond the fallback *)

Lemma call_gpt_stdin (W : World) prompt temperature st :
  stdin (call_gpt W prompt temperature st).2 = stdin st.
Proof.
  rewrite call_gpt_run. cbv zeta. destruct (stripped_content _); reflexivity.
Qed.

Lemma default_lookup_build (str_lower : string -> string) catalog tag :
  default [] (build_tag_index str_lower catalog !! tag)
  = postings str_lower tag catalog.
Proof.
  rewrite Index.lookup_build. unfold DefaultDict.extend.
  destruct (postings str_lower tag catalog); reflexivity.
Qed.

Lemma bind_pointwise {A B} (f g : A → list B) (l : list A) :
  (∀ x, f x = g x) → l ≫= f = l ≫= g.
Proof.
  intros Hfg. induction l as [|x l IH]; [reflexivity|].
  rewrite !bind_cons, Hfg, IH. reflexivity.
Qed.

(** X10. For an index built at startup, as soon as one token of the
    tag-selection response is a key of the index the handler goes on to
    the product-selection call and returns what that call returns.  The
    products presented are the entries of the valid tags, in the order of
    the tags in the response and in catalog order within a tag, with
    repetitions; there is at least one of them. *)
Theorem recommendation_presents_matches (str_lower : string -> string)
    (W : World) (catalog : list Product) (query : string) (st : State)
    (tag_response : string) :
  let index := tag_index (self st) in
  let tag_csv := join ", " (DefaultDict.sorted_keys index) in
  let tag_selection := call_gpt W (tag_selection_prompt tag_csv query) 0 st in
  let valid_tags :=
    filter (λ tag, DefaultDict.contains tag index)
           (strip <$> split "," tag_response) in
  let matched := valid_tags ≫= λ tag, postings str_lower tag catalog in
  index = build_tag_index str_lower catalog →
  tag_selection.1 = Ret tag_response →
  valid_tags ≠ [] →
  matched ≠ []
  ∧ handle_product_recommendation W query st
    = call_gpt W
        (product_selection_prompt query (join nl (product_line <$> matched)))
        0 tag_selection.2.
Proof.
  intros index tag_csv tag_selection valid_tags matched Hbuilt Hresponse Hvalid.
  assert (Hmatched : matched ≠ []).
  { destruct valid_tags as [|tag tags] eqn:Htags; [congruence|].
    assert (tag ∈ filter (λ tag, DefaultDict.contains tag index)
                    (strip <$> split "," tag_response)) as Htag
      by (fold valid_tags; rewrite Htags; left).
    apply list_elem_of_filter in Htag as [Hkey _].
    apply contains_spec in Hkey as [entry Hentry].
    rewrite Hbuilt in Hentry.
    apply Index.lookup_build_Some in Hentry as [-> Hne].
    subst matched. rewrite bind_cons. intros Hnil.
    apply app_eq_nil in Hnil as [Hnil _]. contradiction. }
  split; [exact Hmatched|].
  rewrite recommendation_run. cbv zeta. fold index. fold tag_csv.
  fold tag_selection.
  destruct tag_selection as [outcome st1] eqn:Hcall. cbn [fst snd] in *.
  subst outcome. fold valid_tags.
  rewrite (bind_pointwise _ (λ tag, postings str_lower tag catalog))
    by (intros tag; rewrite Hbuilt; apply default_lookup_build).
  fold matched. destruct matched as [|p ps]; [congruence|reflexivity].
Qed.

Lemma recommendation_presents_matches_witness :
  handle_product_recommendation
    (Demo.scripted [Demo.says "cooking, camping"; Demo.says "Trail Stove"] 9 0)
    "stove?" (Demo.start [])
  = call_gpt
      (Demo.scripted [Demo.says "cooking, camping"; Demo.says "Trail Stove"] 9 0)
      (product_selection_prompt "stove?"
         (join nl (product_line <$> [Demo.stove; Demo.tent; Demo.stove])))
      0
      (call_gpt
         (Demo.scripted [Demo.says "cooking, camping"; Demo.says "Trail Stove"] 9 0)
         (tag_selection_prompt "camping, cooking, shelter" "stove?") 0
         (Demo.start [])).2.
Proof.
  refine (proj2 (recommendation_presents_matches lower_ascii
                   (Demo.scripted [Demo.says "cooking, camping";
                                   Demo.says "Trail Stove"] 9 0)
                   [Demo.tent; Demo.stove] "stove?" (Demo.start [])
                   "cooking, camping" _ _ _)).
  - reflexivity.
  - vm_compute. reflexivity.
  - vm_compute. discriminate.
Defined.

(** X11. The recommendation handler never raises and never reads the
    console; it leaves the agent, history included, as it was.  It sends
    the tag-selection request and at most one more request, both with a
    single user message at temperature 0. *)
Theorem recommendation_footprint (W : World) (query : string) (st : State) :
  let run := handle_product_recommendation W query st in
  let tag_csv := join ", " (DefaultDict.sorted_keys (tag_index (self st))) in
  (∃ reply, run.1 = Ret reply)
  ∧ self run.2 = self st
  ∧ stdin run.2 = stdin st
  ∧ ∃ more,
      sent run.2
      = sent st ++ single_turn (tag_selection_prompt tag_csv query) 0 :: more
      ∧ (more = [] ∨ ∃ prompt, more = [single_turn prompt 0]).
Proof.
  intros run tag_csv. subst run.
  split; [|split; [apply recommendation_self|]].
  - rewrite recommendation_run. cbv zeta. fold tag_csv.
    destruct (call_gpt_returns W (tag_selection_prompt tag_csv query) 0 st)
      as [tag_response Hr].
    destruct (call_gpt W (tag_selection_prompt tag_csv query) 0 st)
      as [outcome st1]. cbn [fst] in Hr. subst outcome.
    destruct (_ ≫= _) as [|p ps]; [eauto|apply call_gpt_returns].
  - rewrite recommendation_run. cbv zeta. fold tag_csv.
    pose proof (call_gpt_returns W (tag_selection_prompt tag_csv query) 0 st)
      as [tag_response Hr].
    pose proof (call_gpt_stdin W (tag_selection_prompt tag_csv query) 0 st)
      as Hstdin.
    pose proof (call_gpt_sent W (tag_selection_prompt tag_csv query) 0 st)
      as Hsent.
    destruct (call_gpt W (tag_selection_prompt tag_csv query) 0 st)
      as [outcome st1]. cbn [fst snd] in *. subst outcome.
    destruct (_ ≫= _) as [|p ps].
    + split; [exact Hstdin|]. exists []. split; [exact Hsent|left; reflexivity].
    + rewrite call_gpt_stdin, call_gpt_sent, Hsent, Hstdin, <- app_assoc.
      split; [reflexivity|]. eexists. split; [reflexivity|]. right. eauto.
Qed.

(** ** A whole turn *)

Lemma order_info_effects (query : string) st :
  let run := handle_order_info query st in
  sent run.2 = sent st
  ∧ (length (stdin run.2) ≤ length (stdin st))%nat
  ∧ ((2 ≤ length (stdin st))%nat → ∃ reply, run.1 = Ret reply)
  ∧ ((length (stdin st) < 2)%nat → run.1 = Raise EOFError).
Proof.
  intros run. subst run. unfold handle_order_info, bind, input, get, ret.
  destruct (stdin st) as [|email [|order_number rest]] eqn:Hin; cbn;
    rewrite ?Hin; cbn;
    (split; [reflexivity|]); (split; [lia|]);
    (split; intros Hlen; [first [solve [eauto] | exfalso; lia]
                         |first [reflexivity | exfalso; lia]]).
Qed.

Lemma recommendation_effects (W : World) (query : string) st :
  let run := handle_product_recommendation W query st in
  (∃ reply, run.1 = Ret reply)
  ∧ stdin run.2 = stdin st
  ∧ ∃ mid, sent run.2 = sent st ++ mid ∧ (length mid ≤ 2)%nat.
Proof.
  intros run. subst run. rewrite recommendation_run. cbv zeta.
  set (prompt := tag_selection_prompt _ query).
  pose proof (call_gpt_returns W prompt 0 st) as [tag_response Hr].
  pose proof (call_gpt_stdin W prompt 0 st) as Hstdin.
  pose proof (call_gpt_sent W prompt 0 st) as Hsent.
  destruct (call_gpt W prompt 0 st) as [outcome st1].
  cbn [fst snd] in *. subst outcome.
  destruct (_ ≫= _) as [|p ps].
  - split; [eauto|]. split; [exact Hstdin|].
    eexists. split; [exact Hsent|]. cbn. lia.
  - split; [apply call_gpt_returns|].
    rewrite call_gpt_stdin, call_gpt_sent, Hsent, Hstdin, <- app_assoc.
    split; [reflexivity|]. eexists. split; [reflexivity|]. cbn. lia.
Qed.

Lemma promo_effects (W : World) st :
  let run := handle_early_riser_promo W st in
  (∃ reply, run.1 = Ret reply)
  ∧ stdin run.2 = stdin st
  ∧ sent run.2 = sent st.
Proof.
  intros run. subst run.
  unfold handle_early_riser_promo, bind, now_hour, uuid4, ret.
  destruct (_ && _); cbn; repeat split; eauto.
Qed.

(** What the three handlers together do to the console and to the
    request log. *)
Lemma run_handlers_effects (W : World) user_input intents st :
  let run := run_handlers W user_input intents st in
  (∃ mid, sent run.2 = sent st ++ mid ∧ (length mid ≤ 2)%nat)
  ∧ (length (stdin run.2) ≤ length (stdin st))%nat
  ∧ ((2 ≤ length (stdin st))%nat ∨ "order" ∉ intents →
     ∃ responses, run.1 = Ret responses)
  ∧ ("order" ∈ intents → (length (stdin st) < 2)%nat →
     run.1 = Raise EOFError ∧ sent run.2 = sent st).
Proof.
  intros run. subst run. rewrite run_handlers_fragments.
  set (rest := λ a : list string,
         (b <- fragment (in_list "recommendation" intents)
                 (handle_product_recommendation W user_input);;
          c <- fragment (in_list "early_riser" intents)
                 (handle_early_riser_promo W);;
          ret (a ++ b ++ c))).
  assert (Hrest : ∀ a sa,
    (∃ responses, (rest a sa).1 = Ret responses)
    ∧ stdin (rest a sa).2 = stdin sa
    ∧ ∃ mid, sent (rest a sa).2 = sent sa ++ mid ∧ (length mid ≤ 2)%nat).
  { intros a sa. subst rest. cbv beta. unfold fragment, bind, ret.
    destruct (in_list "recommendation" intents).
    - destruct (recommendation_effects W user_input sa)
        as ([rr Hr] & Hstdin & mid & Hsent & Hlen).
      destruct (handle_product_recommendation W user_input sa)
        as [outcome sb]. cbn [fst snd] in *. subst outcome.
      destruct (in_list "early_riser" intents).
      + destruct (promo_effects W sb) as ([rp Hp] & Hstdin' & Hsent').
        destruct (handle_early_riser_promo W sb) as [outcome sc].
        cbn [fst snd] in *. subst outcome. cbn.
        split; [eexists; reflexivity|]. split; [congruence|].
        exists mid. split; [congruence|exact Hlen].
      + cbn. split; [eexists; reflexivity|]. split; [exact Hstdin|]. eauto.
    - destruct (in_list "early_riser" intents).
      + destruct (promo_effects W sa) as ([rp Hp] & Hstdin' & Hsent').
        destruct (handle_early_riser_promo W sa) as [outcome sc].
        cbn [fst snd] in *. subst outcome. cbn.
        split; [eexists; reflexivity|]. split; [exact Hstdin'|].
        exists []. rewrite app_nil_r. split; [exact Hsent'|cbn; lia].
      + cbn. split; [eexists; reflexivity|]. split; [reflexivity|].
        exists []. rewrite app_nil_r. split; [reflexivity|cbn; lia]. }
  clearbody rest. unfold fragment, in_list, bind.
  destruct (bool_decide ("order" ∈ intents)) eqn:Horder.
  - apply bool_decide_eq_true in Horder.
    destruct (order_info_effects user_input st) as (Hsent & Hlen & Hret & Heof).
    destruct (handle_order_info user_input st) as [[ro|e] sa];
      cbn [fst snd] in *.
    + unfold ret.
      destruct (Hrest [ro] sa) as ([rs Hrs] & Hstdin & mid & Hmid & Hm).
      split; [exists mid; split; [congruence|exact Hm]|].
      split; [rewrite Hstdin; exact Hlen|].
      split; [eauto|].
      intros _ Hshort. specialize (Heof Hshort). discriminate.
    + split; [exists []; rewrite app_nil_r; split; [exact Hsent|cbn; lia]|].
      split; [exact Hlen|]. split.
      * intros [Henough | Hno]; [|contradiction].
        destruct (Hret Henough) as [r Hr]. discriminate.
      * intros _ Hshort. destruct e. split; [reflexivity|exact Hsent].
  - apply bool_decide_eq_false in Horder. unfold ret.
    destruct (Hrest [] st) as ([rs Hrs] & Hstdin & mid & Hmid & Hm).
    split; [eauto|]. split; [rewrite Hstdin; lia|]. split; [eauto|].
    intros Hin. contradiction.
Qed.

Lemma exchanges_app_bounded (n : nat) (h t : list Message) :
  (length h ≤ n)%nat → exchanges h = true → exchanges (h ++ t) = exchanges t.
Proof.
  revert h. induction n as [|n IH]; intros h Hlen Hh.
  - destruct h; [reflexivity|cbn in Hlen; lia].
  - destruct h as [|u [|a rest]]; [reflexivity|discriminate|].
    cbn [app exchanges] in *.
    destruct (role u), (role a); try discriminate.
    apply IH; [cbn in Hlen; lia|exact Hh].
Qed.

Lemma exchanges_snoc (h : list Message) (message reply : string) :
  exchanges h = true →
  exchanges (h ++ [user_message message; assistant_message reply]) = true.
Proof.
  intros Hh. rewrite (exchanges_app_bounded (length h)) by (lia || exact Hh).
  reflexivity.
Qed.

(** The persona chat leaves the history as it is or adds one exchange. *)
Lemma chat_history (W : World) (message : string) st :
  let run := call_gpt_and_update_history W message st in
  history (self run.2) = history (self st)
  ∨ ∃ reply, run.1 = Ret reply
             ∧ history (self run.2)
               = history (self st)
                   ++ [user_message message; assistant_message reply].
Proof.
  intros run. subst run. rewrite chat_run. cbv zeta.
  destruct (stripped_content _) as [e|reply]; [left; reflexivity|].
  right. exists reply. split; reflexivity.
Qed.

Lemma parse_intents_apology : parse_intents gpt_apology = [gpt_apology].
Proof. vm_compute. reflexivity. Qed.

(** X12. When the classification call fails, also by a malformed
    response, no handler runs: the turn goes on to the persona chat with
    the raw utterance, in the state left by the failed call. *)
Theorem classification_failure_falls_back_to_chat (W : World)
    (user_input : string) (st : State) (e : string) :
  let req := single_turn (intent_prompt user_input) 0 in
  stripped_content (completions_create W (sent st) req) = inl e →
  handle W user_input st
  = call_gpt_and_update_history W user_input
      (write ("[GPT error] " +:+ e +:+ nl) (record_request req st)).
Proof.
  intros req Hfail. rewrite handle_run, call_gpt_run. cbv zeta. fold req.
  rewrite Hfail, parse_intents_apology.
  rewrite run_handlers_none; [reflexivity|..];
    intros Hin; apply list_elem_of_singleton in Hin; discriminate.
Qed.

Lemma classification_failure_falls_back_to_chat_witness :
  handle (Demo.scripted [Raised "timeout"; Demo.says "Hello!"] 9 0) "hi"
    (Demo.start [])
  = call_gpt_and_update_history
      (Demo.scripted [Raised "timeout"; Demo.says "Hello!"] 9 0) "hi"
      (write ("[GPT error] timeout" +:+ nl)
         (record_request (single_turn (intent_prompt "hi") 0) (Demo.start []))).
Proof.
  refine (classification_failure_falls_back_to_chat
            (Demo.scripted [Raised "timeout"; Demo.says "Hello!"] 9 0) "hi"
            (Demo.start []) "timeout" _).
  reflexivity.
Defined.

(** X13. A turn never rewrites the history: afterwards the history is
    the one before, or the one before followed by one exchange whose
    assistant turn is the reply returned and whose user turn is the raw
    utterance or a compiled prompt.  A history made of exchanges stays
    made of exchanges. *)
Theorem handle_history_append_only (W : World) (user_input : string)
    (st : State) :
  let run := handle W user_input st in
  (history (self run.2) = history (self st)
   ∨ ∃ message reply,
       run.1 = Ret reply
       ∧ (message = user_input
          ∨ ∃ additional_info,
              message = compiled_prompt user_input additional_info)
       ∧ history (self run.2)
         = history (self st)
             ++ [{| role := user; content := message |};
                 {| role := assistant; content := reply |}])
  ∧ (exchanges (history (self st)) = true →
     exchanges (history (self run.2)) = true).
Proof.
  intros run.
  assert (Hstep :
    history (self run.2) = history (self st)
    ∨ ∃ message reply,
        run.1 = Ret reply
        ∧ (message = user_input
           ∨ ∃ additional_info,
               message = compiled_prompt user_input additional_info)
        ∧ history (self run.2)
          = history (self st)
              ++ [user_message message; assistant_message reply]).
  { subst run. rewrite handle_run.
    pose proof (call_gpt_self W (intent_prompt user_input) 0 st) as H1.
    destruct (call_gpt W _ 0 st) as [[intent_response|e] st1];
      cbn [snd] in H1; [|left; cbn [snd]; rewrite H1; reflexivity].
    cbv zeta.
    pose proof (run_handlers_self W user_input
                  (parse_intents intent_response) st1) as H2.
    destruct (run_handlers W _ _ st1) as [[responses|e] st2];
      cbn [snd] in H2; [|left; cbn [snd]; rewrite H2, H1; reflexivity].
    assert (Hsame : history (self st2) = history (self st)) by congruence.
    destruct (_ || _).
    - destruct (chat_history W user_input st2) as [Hkeep | (reply & Hr & Hh)].
      + left. congruence.
      + right. exists user_input, reply. rewrite Hh, Hsame. eauto.
    - destruct (chat_history W (compiled_prompt user_input (join nl responses))
                  st2) as [Hkeep | (reply & Hr & Hh)].
      + left. congruence.
      + right. eexists _, reply. rewrite Hh, Hsame. eauto. }
  split; [exact Hstep|].
  intros Hok. destruct Hstep as [-> | (message & reply & _ & _ & ->)];
    [exact Hok|apply exchanges_snoc, Hok].
Qed.

Lemma handle_history_append_only_witness :
  exchanges
    (history (self (handle ScenarioB.world "status and deals?" ScenarioB.st0).2))
  = true.
Proof.
  refine (proj2 (handle_history_append_only ScenarioB.world "status and deals?"
                   ScenarioB.st0) _).
  reflexivity.
Defined.

(** X14. When [order] is among the intents and fewer than two lines are
    left on the console, the turn ends with [EOFError] before any persona
    chat: the classification request is the only request sent, and the
    agent, history included, is as it was. *)
Theorem handle_eof_before_chat (W : World) (user_input : string) (st : State)
    (intent_response : string) :
  (call_gpt W (intent_prompt user_input) 0 st).1 = Ret intent_response →
  "order" ∈ parse_intents intent_response →
  (length (stdin st) < 2)%nat →
  let run := handle W user_input st in
  run.1 = Raise EOFError
  ∧ sent run.2 = sent st ++ [single_turn (intent_prompt user_input) 0]
  ∧ self run.2 = self st.
Proof.
  intros Hclassify Horder Hshort run. subst run. rewrite handle_run.
  pose proof (call_gpt_self W (intent_prompt user_input) 0 st) as Hself.
  pose proof (call_gpt_sent W (intent_prompt user_input) 0 st) as Hsent.
  pose proof (call_gpt_stdin W (intent_prompt user_input) 0 st) as Hstdin.
  destruct (call_gpt W _ 0 st) as [outcome st1]. cbn [fst snd] in *.
  subst outcome. cbv zeta.
  pose proof (run_handlers_self W user_input
                (parse_intents intent_response) st1) as Hself'.
  destruct (run_handlers_effects W user_input (parse_intents intent_response)
              st1) as (_ & _ & _ & Heof).
  destruct (Heof Horder) as [Hraise Hsent']; [rewrite Hstdin; exact Hshort|].
  destruct (run_handlers W _ _ st1) as [outcome st2]. cbn [fst snd] in *.
  subst outcome. cbn [fst snd].
  split; [reflexivity|]. split; congruence.
Qed.

Lemma handle_eof_before_chat_witness :
  (handle (Demo.scripted [Demo.says "order"; Demo.says "Hello!"] 9 0)
     "where is my order" (Demo.start ["ann@example.com"])).1
  = Raise EOFError.
Proof.
  refine (proj1 (handle_eof_before_chat
                   (Demo.scripted [Demo.says "order"; Demo.says "Hello!"] 9 0)
                   "where is my order" (Demo.start ["ann@example.com"])
                   "order" _ _ _)).
  - vm_compute. reflexivity.
  - vm_compute. left.
  - cbn. lia.
Defined.

(** X15. A turn returns a reply whenever two lines are left on the
    console, or the classifier's response does not name [order]: nothing
    but the console running dry can make [handle] raise. *)
Theorem handle_returns (W : World) (user_input : string) (st : State) :
  (2 ≤ length (stdin st))%nat
  ∨ (∀ intent_response,
       (call_gpt W (intent_prompt user_input) 0 st).1 = Ret intent_response →
       "order" ∉ parse_intents intent_response) →
  ∃ reply, (handle W user_input st).1 = Ret reply.
Proof.
  intros Hsafe. rewrite handle_run.
  pose proof (call_gpt_returns W (intent_prompt user_input) 0 st)
    as [intent_response Hr].
  pose proof (call_gpt_stdin W (intent_prompt user_input) 0 st) as Hstdin.
  destruct (call_gpt W _ 0 st) as [outcome st1]. cbn [fst snd] in *.
  subst outcome. cbv zeta.
  destruct (run_handlers_effects W user_input (parse_intents intent_response)
              st1) as (_ & _ & Hret & _).
  destruct Hret as [responses Hresponses].
  { destruct Hsafe as [Hlines | Hnone].
    - left. rewrite Hstdin. exact Hlines.
    - right. apply Hnone. reflexivity. }
  destruct (run_handlers W _ _ st1) as [outcome st2]. cbn [fst] in Hresponses.
  subst outcome. destruct (_ || _); apply chat_returns.
Qed.

Lemma handle_returns_witness :
  ∃ reply,
    (handle ScenarioC.world "where is my order" ScenarioC.st0).1 = Ret reply.
Proof.
  refine (handle_returns ScenarioC.world "where is my order" ScenarioC.st0 _).
  left. cbn. lia.
Defined.

(** X16. A turn that returns has sent between two and four requests: the
    classification request first, at most two requests of the
    recommendation handler, and the persona chat request last.  The chat
    request replays the history as it was before the turn. *)
Theorem handle_request_budget (W : World) (user_input : string) (st : State)
    (reply : string) :
  (handle W user_input st).1 = Ret reply →
  ∃ mid message,
    sent (handle W user_input st).2
    = sent st
        ++ single_turn (intent_prompt user_input) 0
        :: mid
        ++ [chat_request
              ({| role := system; content := system_prompt |}
                 :: history (self st)
                 ++ [{| role := user; content := message |}])]
    ∧ (length mid ≤ 2)%nat.
Proof.
  rewrite handle_run.
  pose proof (call_gpt_self W (intent_prompt user_input) 0 st) as Hself.
  pose proof (call_gpt_sent W (intent_prompt user_input) 0 st) as Hsent.
  destruct (call_gpt W _ 0 st) as [[intent_response|e] st1];
    cbn [fst snd] in *; [|discriminate].
  cbv zeta.
  pose proof (run_handlers_self W user_input
                (parse_intents intent_response) st1) as Hself'.
  destruct (run_handlers_effects W user_input (parse_intents intent_response)
              st1) as ((mid & Hmid & Hlen) & _).
  destruct (run_handlers W _ _ st1) as [[responses|e] st2];
    cbn [fst snd] in *; [|discriminate].
  assert (Hhist : history (self st2) = history (self st)) by congruence.
  intros _. exists mid.
  destruct (_ || _); eexists; rewrite chat_sent, Hmid, Hsent, Hhist;
    unfold persona_messages, user_message; cbn [app];
    rewrite <- !app_assoc; (split; [reflexivity|exact Hlen]).
Qed.

Lemma handle_request_budget_witness :
  ∃ mid message,
    sent (handle ScenarioC.world "where is my order" ScenarioC.st0).2
    = sent ScenarioC.st0
        ++ single_turn (intent_prompt "where is my order") 0
        :: mid
        ++ [chat_request
              ({| role := system; content := system_prompt |}
                 :: history (self ScenarioC.st0)
                 ++ [{| role := user; content := message |}])]
    ∧ (length mid ≤ 2)%nat.
Proof.
  refine (handle_request_budget ScenarioC.world "where is my order"
            ScenarioC.st0 "On its way!" _).
  vm_compute. reflexivity.
Defined.

(** ** The chat loop *)

Lemma evolves_refl a : evolves a a.
Proof.
  unfold evolves. repeat split; try reflexivity.
  - exists []. rewrite app_nil_r. reflexivity.
  - auto.
Qed.

Lemma evolves_trans a b c : evolves a b → evolves b c → evolves a c.
Proof.
  intros (Ho & Hp & Ht & [l Hl] & He) (Ho' & Hp' & Ht' & [l' Hl'] & He').
  unfold evolves. repeat split; try congruence.
  - exists (l ++ l'). rewrite Hl', Hl, app_assoc. reflexivity.
  - auto.
Qed.

Lemma chat_stdin (W : World) (message : string) st :
  stdin (call_gpt_and_update_history W message st).2 = stdin st.
Proof.
  rewrite chat_run. cbv zeta. destruct (stripped_content _); reflexivity.
Qed.

Lemma chat_evolves (W : World) (message : string) st :
  evolves (self st) (self (call_gpt_and_update_history W message st).2).
Proof.
  destruct (chat_same_data W message st) as (Ho & Hp & Ht).
  unfold evolves. repeat (split; [assumption|]).
  destruct (chat_history W message st) as [-> | (reply & _ & ->)].
  - split; [exists []; rewrite app_nil_r; reflexivity|auto].
  - split; [eauto|apply exchanges_snoc].
Qed.

Lemma handle_evolves (W : World) (user_input : string) st :
  evolves (self st) (self (handle W user_input st).2).
Proof.
  rewrite handle_run.
  pose proof (call_gpt_self W (intent_prompt user_input) 0 st) as H1.
  destruct (call_gpt W _ 0 st) as [[intent_response|e] st1]; cbn [snd] in *;
    [|rewrite H1; apply evolves_refl].
  cbv zeta.
  pose proof (run_handlers_self W user_input
                (parse_intents intent_response) st1) as H2.
  destruct (run_handlers W _ _ st1) as [[responses|e] st2]; cbn [snd] in *;
    [|rewrite H2, H1; apply evolves_refl].
  rewrite <- H1, <- H2. destruct (_ || _); apply chat_evolves.
Qed.

Lemma handle_stdin_le (W : World) (user_input : string) st :
  (length (stdin (handle W user_input st).2) ≤ length (stdin st))%nat.
Proof.
  rewrite handle_run.
  pose proof (call_gpt_stdin W (intent_prompt user_input) 0 st) as H1.
  destruct (call_gpt W _ 0 st) as [[intent_response|e] st1]; cbn [snd] in *;
    [|rewrite H1; lia].
  cbv zeta.
  destruct (run_handlers_effects W user_input (parse_intents intent_response)
              st1) as (_ & H2 & _).
  rewrite H1 in H2.
  destruct (run_handlers W _ _ st1) as [[responses|e] st2]; cbn [snd] in *;
    [|exact H2].
  destruct (_ || _); rewrite chat_stdin; exact H2.
Qed.

Section Loop.

Variable str_lower : string -> string.
Variable W : World.

(** One round of the loop. *)
Lemma chat_loop_round (fuel : nat) st :
  chat_loop str_lower W (S fuel) st =
    match stdin st with
    | [] => (Raise EOFError, write you_prompt st)
    | line :: rest =>
        let st0 := set_stdin rest (write you_prompt st) in
        if is_quit str_lower line
        then (Ret (Some tt), write (farewell +:+ nl) st0)
        else
          match handle W line st0 with
          | (Ret reply, st1) =>
              chat_loop str_lower W fuel
                (write ((reply_label +:+ " " +:+ reply) +:+ nl) st1)
          | (Raise e, st1) => (Raise e, st1)
          end
    end.
Proof.
  cbn [chat_loop]. unfold bind at 1. unfold input.
  destruct (stdin st) as [|line rest]; [reflexivity|].
  cbv zeta. destruct (is_quit str_lower line); [reflexivity|].
  unfold bind at 1.
  destruct (handle W line _) as [[reply|e] st1]; reflexivity.
Qed.

Lemma chat_loop_evolves (fuel : nat) st :
  evolves (self st) (self (chat_loop str_lower W fuel st).2).
Proof.
  induction fuel as [|fuel IH] in st |- *; [apply evolves_refl|].
  rewrite chat_loop_round.
  destruct (stdin st) as [|line rest]; [apply evolves_refl|].
  cbv zeta. destruct (is_quit str_lower line); [apply evolves_refl|].
  pose proof (handle_evolves W line (set_stdin rest (write you_prompt st)))
    as Hturn.
  destruct (handle W line _) as [[reply|e] st1]; cbn [snd] in Hturn;
    [|exact Hturn].
  eapply evolves_trans; [exact Hturn|].
  exact (IH (write ((reply_label +:+ " " +:+ reply) +:+ nl) st1)).
Qed.

End Loop.

(** X17. A line that reads [exit] or [quit] once trimmed and lowercased
    ends the session: the farewell is printed and the loop stops without
    dispatching, so that no request is sent, the agent is as it was and
    the lines that follow stay unread. *)
Theorem quit_ends_session (str_lower : string -> string) (W : World)
    (fuel : nat) (line : string) (rest : list string) (st : State) :
  stdin st = line :: rest →
  str_lower (strip line) = "exit" ∨ str_lower (strip line) = "quit" →
  let run := chat_loop str_lower W (S fuel) st in
  run.1 = Ret (Some tt)
  ∧ sent run.2 = sent st
  ∧ self run.2 = self st
  ∧ stdin run.2 = rest
  ∧ stdout run.2 = stdout st ++ [you_prompt; farewell +:+ nl].
Proof.
  intros Hin Hword run. subst run. rewrite chat_loop_round, Hin. cbv zeta.
  assert (is_quit str_lower line = true) as ->.
  { unfold is_quit, in_list. apply bool_decide_eq_true.
    destruct Hword as [-> | ->]; [left|right; left]. }
  cbn. rewrite <- app_assoc. repeat split; reflexivity.
Qed.

Lemma quit_ends_session_witness :
  (chat_loop lower_ascii (Demo.scripted [] 9 0) 1
     (Demo.start ["  QUIT "; "hello"])).1
  = Ret (Some tt).
Proof.
  refine (proj1 (quit_ends_session lower_ascii (Demo.scripted [] 9 0) 0
                   "  QUIT " ["hello"] (Demo.start ["  QUIT "; "hello"]) _ _)).
  - reflexivity.
  - right. vm_compute. reflexivity.
Defined.

(** X18. On a finite console the loop ends: unrolled more often than
    there are lines left, it stops on a quit word or on [EOFError], never
    for lack of fuel, and unrolling it further changes nothing. *)
Theorem chat_loop_terminates (str_lower : string -> string) (W : World)
    (fuel : nat) (st : State) :
  (length (stdin st) < fuel)%nat →
  ((chat_loop str_lower W fuel st).1 = Ret (Some tt)
   ∨ (chat_loop str_lower W fuel st).1 = Raise EOFError)
  ∧ ∀ fuel', (fuel ≤ fuel')%nat →
      chat_loop str_lower W fuel' st = chat_loop str_lower W fuel st.
Proof.
  induction fuel as [|fuel IH] in st |- *; intros Hlen; [lia|].
  assert (Hround : ∀ line rest text,
            stdin st = line :: rest →
            (length
               (stdin (write text
                         (handle W line
                            (set_stdin rest (write you_prompt st))).2))
             < fuel)%nat).
  { intros line rest text Hin.
    pose proof (handle_stdin_le W line (set_stdin rest (write you_prompt st)))
      as Hle.
    cbn [set_stdin write stdin] in *. rewrite Hin in Hlen. cbn in Hlen. lia. }
  split.
  - rewrite chat_loop_round.
    destruct (stdin st) as [|line rest] eqn:Hin; [right; reflexivity|].
    cbv zeta. destruct (is_quit str_lower line); [left; reflexivity|].
    pose proof (λ text, Hround line rest text eq_refl) as Hnext.
    revert Hnext.
    destruct (handle W line _) as [[reply|[]] st1]; intros Hnext;
      [|right; reflexivity].
    apply IH, Hnext.
  - intros fuel' Hfuel. destruct fuel' as [|fuel']; [lia|].
    rewrite !chat_loop_round.
    destruct (stdin st) as [|line rest] eqn:Hin; [reflexivity|].
    cbv zeta. destruct (is_quit str_lower line); [reflexivity|].
    pose proof (λ text, Hround line rest text eq_refl) as Hnext.
    revert Hnext.
    destruct (handle W line _) as [[reply|e] st1]; intros Hnext;
      [|reflexivity].
    apply IH; [apply Hnext|lia].
Qed.

Lemma chat_loop_terminates_witness :
  (chat_loop lower_ascii ScenarioC.world 2
     (Demo.start ["where is my order"])).1 = Ret (Some tt)
  ∨ (chat_loop lower_ascii ScenarioC.world 2
       (Demo.start ["where is my order"])).1 = Raise EOFError.
Proof.
  refine (proj1 (chat_loop_terminates lower_ascii ScenarioC.world 2
                   (Demo.start ["where is my order"]) _)).
  cbn. lia.
Defined.

(** The same session: the classifier names [order] and the console has
    no line left for the email. *)
Example session_runs_dry :
  (chat_loop lower_ascii ScenarioC.world 2
     (Demo.start ["where is my order"])).1 = Raise EOFError.
Proof. vm_compute. reflexivity. Qed.

(** X19. Whatever is typed and whatever the provider answers, at every
    point where a session stops the agent still holds the orders and the
    catalog it loaded and the tag index built from the catalog, and its
    history is a sequence of exchanges, a user turn followed by an
    assistant turn. *)
Theorem session_keeps_agent_sound (str_lower : string -> string) (W : World)
    (customer_orders : list Order) (product_catalog : list Product)
    (lines : list string) (fuel : nat) :
  let final :=
    (main str_lower W fuel
       (boot str_lower customer_orders product_catalog lines)).2 in
  orders (self final) = customer_orders
  ∧ products (self final) = product_catalog
  ∧ tag_index (self final) = build_tag_index str_lower product_catalog
  ∧ exchanges (history (self final)) = true.
Proof.
  intros final. subst final. unfold main, bind, print, modify.
  destruct (chat_loop_evolves str_lower W fuel
              (write (welcome +:+ nl)
                 (boot str_lower customer_orders product_catalog lines)))
    as (Ho & Hp & Ht & _ & He).
  repeat split; [exact Ho|exact Hp|exact Ht|apply He; reflexivity].
Qed.

(** ** Edge cases and composition *)

(** X20. The history is replayed in full: after a persona chat that
    yielded a reply, the request of the next persona chat carries the
    earlier history, then the exchange just recorded, then the new
    message. *)
Theorem chat_replays_previous_exchange (W : World) (first second : string)
    (st : State) (reply : string) :
  stripped_content
    (completions_create W (sent st)
       (chat_request (persona_messages (history (self st)) first)))
  = inr reply →
  let st1 := (call_gpt_and_update_history W first st).2 in
  sent (call_gpt_and_update_history W second st1).2
  = sent st1
      ++ [chat_request
            ({| role := system; content := system_prompt |}
               :: history (self st)
               ++ [{| role := user; content := first |};
                   {| role := assistant; content := reply |};
                   {| role := user; content := second |}])].
Proof.
  intros Hreply st1. rewrite chat_sent. subst st1.
  rewrite chat_run. cbv zeta. rewrite Hreply.
  cbn [snd set_self set_history self history].
  unfold persona_messages. cbn [app]. rewrite <- app_assoc. reflexivity.
Qed.

Lemma chat_replays_previous_exchange_witness :
  let W := Demo.scripted [Demo.says "Hello!"; Demo.says "Sure."] 9 0 in
  let st1 := (call_gpt_and_update_history W "hi" (Demo.start [])).2 in
  sent (call_gpt_and_update_history W "any tents?" st1).2
  = sent st1
      ++ [chat_request
            [{| role := system; content := system_prompt |};
             {| role := user; content := "hi" |};
             {| role := assistant; content := "Hello!" |};
             {| role := user; content := "any tents?" |}]].
Proof.
  intros W.
  refine (chat_replays_previous_exchange W "hi" "any tents?" (Demo.start [])
            "Hello!" _).
  reflexivity.
Defined.

(** X21. With an empty tag index, as an empty catalog gives, the
    recommendation handler offers no tag, sends the tag-selection request
    alone and returns the fallback whatever the model answers. *)
Theorem recommendation_empty_index (W : World) (query : string) (st : State) :
  tag_index (self st) = ∅ →
  let run := handle_product_recommendation W query st in
  run.1 = Ret fallback
  ∧ sent run.2 = sent st ++ [single_turn (tag_selection_prompt "" query) 0].
Proof.
  intros Hempty run. subst run. rewrite recommendation_run, Hempty. cbv zeta.
  assert (DefaultDict.sorted_keys (∅ : gmap string (list Product)) = []) as ->.
  { unfold DefaultDict.sorted_keys. rewrite map_to_list_empty. reflexivity. }
  change (join ", " []) with "".
  pose proof (call_gpt_returns W (tag_selection_prompt "" query) 0 st)
    as [tag_response Hr].
  pose proof (call_gpt_sent W (tag_selection_prompt "" query) 0 st) as Hsent.
  destruct (call_gpt W _ 0 st) as [outcome st1]. cbn [fst snd] in *.
  subst outcome.
  rewrite filter_none; [split; [reflexivity|exact Hsent]|].
  intros tag _ Hkey. apply contains_spec in Hkey as [entry Hentry].
  rewrite lookup_empty in Hentry. discriminate.
Qed.

Lemma recommendation_empty_index_witness :
  (handle_product_recommendation (Demo.scripted [Demo.says "camping"] 9 0)
     "tent?"
     {| self := init lower_ascii [] []; sent := []; stdin := [];
        stdout := []; clock_reads := 0; random_draws := 0 |}).1
  = Ret fallback.
Proof.
  refine (proj1 (recommendation_empty_index
                   (Demo.scripted [Demo.says "camping"] 9 0) "tent?"
                   {| self := init lower_ascii [] []; sent := []; stdin := [];
                      stdout := []; clock_reads := 0; random_draws := 0 |} _)).
  reflexivity.
Defined.
